(** * TaponTama: the capture-and-classify pipeline

    A shallow embedding of [src/app/page.tsx] (the client component
    [TaponTamaApp]) and of the route handler [POST] of the
    classification proxy, with the properties the specification states
    about them.

    Conventions of the embedding.

    - A number of the source is a binary64 value, a Number, and is
      modelled by the rational ([Q]) that it is.  The numbers of the
      source come out of [JSON.parse], of literals and of
      [Math.random()]: they are finite and never NaN, and the
      comparisons of the source are exact on them.  Its multiplications
      are rounded: [Binary64.round] gives the Number nearest to a
      rational, a tie going to the even one, and [JS.mul] is the
      rounded product.  So that a decimal fraction can stand where a
      Number is meant (85/100 for the literal [0.85]), [JS.mul] reads
      its operands with [JS.Number], which leaves a Number as it is.
      Overflow to [Infinity], from [2^1024] on, is not modelled.
    - A string is the [string] of the bytes of its UTF-8 encoding.
      [toLowerCase] and the class [\w] act on the ASCII letters, digits
      and underscore; no key of the mapping table and no name of
      [Object.prototype] is the lower case of a string that is not
      ASCII.  [toUpperCase] is applied by the source to one character
      of the class [\w] and to the names of the categories, which are
      ASCII.
    - An exception is a value of [Exn]; [try]/[catch] is [try_catch].
    - React state ([useState]) and refs ([useRef]) are the fields of
      one record [State], threaded through the handlers; what a handler
      shows to the user ([alert]) or sends over the network is appended
      to a log of effects. *)

From stdpp Require Import gmap strings list fin_maps.
From Stdlib Require Import Ascii String QArith Qround Lqa.

Close Scope Q_scope.
Local Open Scope string_scope.

(** ** Numbers: binary64, rounding to nearest, ties to even *)

Module Binary64.

(** The integer nearest to [q], a tie going to the even one. *)
Definition nearest_even (q : Q) : Z :=
  let f := Qfloor q in
  match (q - inject_Z f ?= 1 # 2)%Q with
  | Lt => f
  | Gt => f + 1
  | Eq => if Z.even f then f else f + 1
  end%Z.

(** Every Number is a multiple of [2^-1074], the least positive one.
    For a magnitude of [n] such units, the spacing of the Numbers
    around it, in the same units: 1 below [2^53] (the subnormal Numbers
    and the first binade), else the power of two that leaves 53
    significant bits. *)
Definition quantum (n : Q) : Z := 2 ^ Z.max 0 (Z.log2 (Qfloor n) - 52).

(** The multiple of the spacing nearest to [n]. *)
Definition round_scaled (n : Q) : Z :=
  nearest_even (n / inject_Z (quantum n)) * quantum n.

(** The Number nearest to [x], for [0 <= x]. *)
Definition round_magnitude (x : Q) : Q :=
  (inject_Z (round_scaled (x * inject_Z (2 ^ 1074))) / inject_Z (2 ^ 1074))%Q.

(** The Number nearest to [x]. *)
Definition round (x : Q) : Q :=
  if Qle_bool 0 x then round_magnitude x else (- round_magnitude (- x))%Q.

End Binary64.

Global Arguments Binary64.round : simpl never.

(** ** JavaScript primitives used by the source *)

Module JS.

(** The Number that a numeric literal or a number of a JSON text
    denotes; a Number is left as it is. *)
Definition Number (x : Q) : Q := Binary64.round x.

Definition is_Number (x : Q) : Prop := (Number x == x)%Q.

(** [x * y] *)
Definition mul (x y : Q) : Q := Number (Number x * Number y).

(** [Math.random()]: a Number that is at least 0 and less than 1, so
    at most [1 - 2^-53], the last Number below 1.  The draw [r] is
    read as a Number and kept in that range. *)
Definition Math_random (r : Q) : Q :=
  let x := Number r in
  let last := (1 - (1 # 2 ^ 53))%Q in
  if Qle_bool x last then x else last.

(** Exceptions that the modelled code can raise. *)
Inductive Error : Type :=
| TypeError
| SyntaxError
| NetworkError
| ErrorMsg (message : string).

Inductive Exn (A : Type) : Type :=
| Return (a : A)
| Throw (e : Error).
Global Arguments Return {A} a.
Global Arguments Throw {A} e.

Definition bind {A B : Type} (m : Exn A) (k : A -> Exn B) : Exn B :=
  match m with
  | Return a => k a
  | Throw e => Throw e
  end.

(** [try { body } catch (error) { handler }] *)
Definition try_catch {A : Type} (body : Exn A) (handler : Error -> A) : A :=
  match body with
  | Return a => a
  | Throw e => handler e
  end.

(** [Math.round]: the nearest integer, a tie going up. *)
Definition Math_round (x : Q) : Z := Qfloor (x + (1 # 2)).

Definition Math_floor (x : Q) : Z := Qfloor x.

(** The truth value of a string or null: null and the empty string
    are falsy. *)
Definition truthy (x : option string) : bool :=
  match x with
  | Some s => negb (String.eqb s "")
  | None => false
  end.

(** [a > b] on numbers. *)
Definition gt (a b : Q) : bool := negb (Qle_bool a b).

(** [x || d] for a number [x]: zero is the only falsy number here. *)
Definition number_or (x : option Q) (d : Q) : Q :=
  match x with
  | None => d
  | Some v => if Qeq_bool v 0 then d else v
  end.

Definition is_upper (c : ascii) : bool :=
  let n := N_of_ascii c in ((65 <=? n) && (n <=? 90))%N.

Definition is_lower (c : ascii) : bool :=
  let n := N_of_ascii c in ((97 <=? n) && (n <=? 122))%N.

Definition is_digit (c : ascii) : bool :=
  let n := N_of_ascii c in ((48 <=? n) && (n <=? 57))%N.

Definition char_toLowerCase (c : ascii) : ascii :=
  if is_upper c then ascii_of_N (N_of_ascii c + 32) else c.

Definition char_toUpperCase (c : ascii) : ascii :=
  if is_lower c then ascii_of_N (N_of_ascii c - 32) else c.

Fixpoint map_chars (f : ascii -> ascii) (s : string) : string :=
  match s with
  | EmptyString => EmptyString
  | String c rest => String (f c) (map_chars f rest)
  end.

Definition toLowerCase (s : string) : string := map_chars char_toLowerCase s.

(** The class [\w] of a regular expression: [A-Za-z0-9_]. *)
Definition is_word_char (c : ascii) : bool :=
  is_upper c || is_lower c || is_digit c || Ascii.eqb c "_"%char.

(** [s.replace(/_/g, " ")] *)
Definition replace_underscores (s : string) : string :=
  map_chars (fun c => if Ascii.eqb c "_"%char then " "%char else c) s.

(** [s.replace(/\b\w/g, l => l.toUpperCase())]: a word character that
    follows the start of the string or a character that is not a word
    character is replaced by its upper case.  [prev_word] tells whether
    the character before the current position is a word character. *)
Fixpoint capitalize_from (prev_word : bool) (s : string) : string :=
  match s with
  | EmptyString => EmptyString
  | String c rest =>
      let w := is_word_char c in
      String (if w && negb prev_word then char_toUpperCase c else c)
             (capitalize_from w rest)
  end.

Definition capitalize_words (s : string) : string := capitalize_from false s.

(** The names every object literal inherits from [Object.prototype]. *)
Definition Object_prototype_keys : list string :=
  [ "constructor"; "__defineGetter__"; "__defineSetter__"; "hasOwnProperty";
    "__lookupGetter__"; "__lookupSetter__"; "isPrototypeOf";
    "propertyIsEnumerable"; "toString"; "valueOf"; "__proto__";
    "toLocaleString" ].

(** The value of [obj[key]] for an object literal [obj] whose own
    properties are [own]: an own property, else a member inherited from
    [Object.prototype] (a function or the prototype object itself, which
    has none of the fields of the table's entries), else [undefined]. *)
Inductive Property (V : Type) : Type :=
| Own (v : V)
| Inherited
| Undefined.
Global Arguments Own {V} v.
Global Arguments Inherited {V}.
Global Arguments Undefined {V}.

Definition get {V : Type} (own : gmap string V) (key : string) : Property V :=
  match own !! key with
  | Some v => Own v
  | None =>
      if bool_decide (key ∈ Object_prototype_keys) then Inherited else Undefined
  end.

(** [a || b] on property values: only [undefined] is falsy. *)
Definition or {V : Type} (a b : Property V) : Property V :=
  match a with
  | Undefined => b
  | _ => a
  end.

(** [m.field] for a property value [m]: throws on [undefined], is
    [undefined] on an inherited member. *)
Definition field {V F : Type} (m : Property V) (f : V -> F) : Exn (option F) :=
  match m with
  | Own v => Return (Some (f v))
  | Inherited => Return None
  | Undefined => Throw TypeError
  end.

(** [array.reduce(callback, initialValue)]: the callback is called on
    the elements in order; a throw of the callback ends the fold. *)
Fixpoint reduce {A B : Type} (callback : B -> A -> Exn B) (array : list A)
  (initialValue : B) : Exn B :=
  match array with
  | [] => Return initialValue
  | current :: rest =>
      bind (callback initialValue current) (reduce callback rest)
  end.

End JS.

Global Arguments JS.Number : simpl never.
Global Arguments JS.mul : simpl never.
Global Arguments JS.Math_random : simpl never.
Global Arguments JS.Math_round : simpl never.
Global Arguments JS.Math_floor : simpl never.

(** The exception monad, with stdpp's notation [x ← m; k]. *)
#[global] Instance Exn_ret : MRet JS.Exn := fun A a => JS.Return a.
#[global] Instance Exn_bind : MBind JS.Exn := fun A B k m => JS.bind m k.

(** ** Data model *)

Inductive WasteClassification : Type :=
| biodegradable
| non_biodegradable
| recyclable.

(** [interface ClassificationResult].  A field that the running code
    can leave [undefined] is an option. *)
Record ClassificationResult : Type := {
  type : option WasteClassification;
  confidence : Z;
  item : string;
  tips : option string
}.

(** An entry of [wasteMapping]. *)
Record MappingEntry : Type := {
  entry_type : WasteClassification;
  entry_tips : string
}.

(** An element of [outputs] that is an object whose [prob] is a
    number.  [label] is [None] when the field is missing or is not a
    string. *)
Record Prediction : Type := {
  label : option string;
  prob : Q
}.

(** One element of an [outputs] array. *)
Inductive Element : Type :=
| ElementNull                     (* null *)
| ElementOther                    (* not null, without a [prob] or with a null
                                     one: [{}], a number, a string *)
| ElementObject (p : Prediction).

(** The value of [records?.[0]?.outputs]. *)
Inductive Outputs : Type :=
| OutputsAbsent                       (* undefined, null or another falsy value *)
| OutputsElements (l : list Element)  (* an array *)
| OutputsNotArray.                    (* a truthy value without [reduce] *)

(** An array whose elements are all predictions. *)
Definition OutputsArray (l : list Prediction) : Outputs :=
  OutputsElements (ElementObject <$> l).

Record XRecord : Type := { outputs : Outputs }.

(** The body of a classification response as [processXimilarResult]
    reads it. *)
Inductive XimilarResult : Type :=
| PayloadNull                                   (* null or undefined *)
| Payload (records : option (list XRecord)).    (* [None]: no [records] *)

(** ** ResultMapper: [processXimilarResult] *)

Definition wasteMapping : gmap string MappingEntry :=
  list_to_map
  [ ("plastic_bottle",
     {| entry_type := recyclable;
        entry_tips := "Clean and place in recycling bin. Check local recycling guidelines for proper disposal." |});
    ("plastic_bag",
     {| entry_type := recyclable;
        entry_tips := "Take to grocery store plastic bag recycling bins. Don't put in curbside recycling." |});
    ("paper",
     {| entry_type := recyclable;
        entry_tips := "Remove any plastic coating and place in paper recycling bin." |});
    ("cardboard",
     {| entry_type := recyclable;
        entry_tips := "Flatten and place in cardboard recycling. Remove any tape or staples." |});
    ("glass_bottle",
     {| entry_type := recyclable;
        entry_tips := "Clean thoroughly and place in glass recycling container." |});
    ("aluminum_can",
     {| entry_type := recyclable;
        entry_tips := "Clean and place in metal recycling bin. Aluminum cans are highly recyclable!" |});
    ("food_waste",
     {| entry_type := biodegradable;
        entry_tips := "Perfect for composting! Food waste makes excellent fertilizer." |});
    ("fruit_peel",
     {| entry_type := biodegradable;
        entry_tips := "Compost this organic material to create nutrient-rich soil for plants!" |});
    ("vegetable_scraps",
     {| entry_type := biodegradable;
        entry_tips := "Great for composting! These scraps will decompose naturally." |});
    ("styrofoam",
     {| entry_type := non_biodegradable;
        entry_tips := "This goes to general waste. Consider using reusable containers in the future!" |});
    ("electronics",
     {| entry_type := non_biodegradable;
        entry_tips := "Take to an e-waste recycling center. Never put electronics in regular trash!" |});
    ("battery",
     {| entry_type := non_biodegradable;
        entry_tips := "Take to battery recycling center. Batteries contain harmful chemicals." |});
    ("general_waste",
     {| entry_type := non_biodegradable;
        entry_tips := "This item should go in your general waste bin." |}) ].

(** [ximilarResult.records?.[0]?.outputs || []] *)
Definition predictions (ximilarResult : XimilarResult) : JS.Exn Outputs :=
  match ximilarResult with
  | PayloadNull => JS.Throw JS.TypeError
  | Payload None => JS.Return (OutputsArray [])
  | Payload (Some []) => JS.Return (OutputsArray [])
  | Payload (Some (r :: _)) =>
      match outputs r with
      | OutputsAbsent => JS.Return (OutputsArray [])
      | o => JS.Return o
      end
  end.

(** The callback of [reduce] on a prediction:
    [(max, current) => current.prob > (max?.prob || 0) ? current : max] *)
Definition pick (max : option Prediction) (current : Prediction)
  : option Prediction :=
  if JS.gt (prob current) (JS.number_or (prob <$> max) 0)
  then Some current
  else max.

(** The callback on any element: [current.prob] throws on null; on an
    element without a [prob] the comparison is false. *)
Definition callback (max : option Prediction) (current : Element)
  : JS.Exn (option Prediction) :=
  match current with
  | ElementNull => JS.Throw JS.TypeError
  | ElementOther => JS.Return max
  | ElementObject p => JS.Return (pick max p)
  end.

(** [predictions.reduce(..., null)] *)
Definition topPrediction (o : Outputs) : JS.Exn (option Prediction) :=
  match o with
  | OutputsElements l => JS.reduce callback l None
  | _ => JS.Throw JS.TypeError
  end.

(** The result returned when [topPrediction] is null. *)
Definition unknownItem : ClassificationResult :=
  {| type := Some non_biodegradable;
     confidence := 50;
     item := "Unknown item";
     tips := Some "Unable to classify this item. Please dispose of it responsibly." |}.

(** The body of [if (topPrediction) { ... }]. *)
Definition mapPrediction (top : Prediction) : JS.Exn ClassificationResult :=
  match label top with
  | None => JS.Throw JS.TypeError
  | Some l =>
      let category := JS.toLowerCase l in
      let mapping :=
        JS.or (JS.get wasteMapping category) (JS.get wasteMapping "general_waste") in
      ty ← JS.field mapping entry_type ;
      tp ← JS.field mapping entry_tips ;
      JS.Return
        {| type := ty;
           confidence := JS.Math_round (JS.mul (prob top) 100);
           item := JS.capitalize_words (JS.replace_underscores l);
           tips := tp |}
  end.

Definition processXimilarResult (ximilarResult : XimilarResult)
  : JS.Exn ClassificationResult :=
  preds ← predictions ximilarResult ;
  top ← topPrediction preds ;
  match top with
  | Some p => mapPrediction p
  | None => JS.Return unknownItem
  end.

(** ** The client component [TaponTamaApp] *)

(** A [MediaStream] is known by its identity; what matters of it is
    whether its tracks are still live. *)
Definition MediaStream : Type := nat.

(** What a handler does to the outside: [alert(message)] and
    [fetch(url, ...)]. *)
Inductive Effect : Type :=
| Alert (message : string)
| Fetch (url : string).

(** The callbacks that [startCamera] registers on the [<video>]
    element and on the clock. *)
Inductive Callback : Type :=
| LoadedMetadataListener   (* addEventListener("loadedmetadata", handleLoadedMetadata) *)
| OnLoadedMetadata         (* onloadedmetadata = () => setIsCapturing(true) *)
| Timeout3000.             (* setTimeout(..., 3000) *)

#[global] Instance Callback_eq_dec : EqDecision Callback.
Proof. solve_decision. Defined.

(** The [useState] cells and the [streamRef] of the component, the set
    of streams that still have a live track (the camera is in use
    while it is not empty), the callbacks waiting to run, and the
    effects performed so far, oldest first. *)
Record State : Type := {
  isCapturing : bool;
  isInitializingCamera : bool;
  capturedImage : option string;
  classification : option ClassificationResult;
  isAnalyzing : bool;
  streamRef : option MediaStream;
  liveStreams : gset MediaStream;
  pending : list Callback;
  effects : list Effect
}.

Definition initialState : State :=
  {| isCapturing := false;
     isInitializingCamera := false;
     capturedImage := None;
     classification := None;
     isAnalyzing := false;
     streamRef := None;
     liveStreams := ∅;
     pending := [];
     effects := [] |}.

Definition setIsCapturing (b : bool) (s : State) : State :=
  {| isCapturing := b;
     isInitializingCamera := isInitializingCamera s;
     capturedImage := capturedImage s;
     classification := classification s;
     isAnalyzing := isAnalyzing s;
     streamRef := streamRef s;
     liveStreams := liveStreams s;
     pending := pending s;
     effects := effects s |}.

Definition setIsInitializingCamera (b : bool) (s : State) : State :=
  {| isCapturing := isCapturing s;
     isInitializingCamera := b;
     capturedImage := capturedImage s;
     classification := classification s;
     isAnalyzing := isAnalyzing s;
     streamRef := streamRef s;
     liveStreams := liveStreams s;
     pending := pending s;
     effects := effects s |}.

Definition setCapturedImage (i : option string) (s : State) : State :=
  {| isCapturing := isCapturing s;
     isInitializingCamera := isInitializingCamera s;
     capturedImage := i;
     classification := classification s;
     isAnalyzing := isAnalyzing s;
     streamRef := streamRef s;
     liveStreams := liveStreams s;
     pending := pending s;
     effects := effects s |}.

Definition setClassification (c : option ClassificationResult) (s : State)
  : State :=
  {| isCapturing := isCapturing s;
     isInitializingCamera := isInitializingCamera s;
     capturedImage := capturedImage s;
     classification := c;
     isAnalyzing := isAnalyzing s;
     streamRef := streamRef s;
     liveStreams := liveStreams s;
     pending := pending s;
     effects := effects s |}.

Definition setIsAnalyzing (b : bool) (s : State) : State :=
  {| isCapturing := isCapturing s;
     isInitializingCamera := isInitializingCamera s;
     capturedImage := capturedImage s;
     classification := classification s;
     isAnalyzing := b;
     streamRef := streamRef s;
     liveStreams := liveStreams s;
     pending := pending s;
     effects := effects s |}.

(** [streamRef.current = stream] for a stream that [getUserMedia] has
    just opened: its tracks are live. *)
Definition holdStream (stream : MediaStream) (s : State) : State :=
  {| isCapturing := isCapturing s;
     isInitializingCamera := isInitializingCamera s;
     capturedImage := capturedImage s;
     classification := classification s;
     isAnalyzing := isAnalyzing s;
     streamRef := Some stream;
     liveStreams := {[ stream ]} ∪ liveStreams s;
     pending := pending s;
     effects := effects s |}.

(** [streamRef.current.getTracks().forEach(track => track.stop());
    streamRef.current = null] *)
Definition releaseStream (stream : MediaStream) (s : State) : State :=
  {| isCapturing := isCapturing s;
     isInitializingCamera := isInitializingCamera s;
     capturedImage := capturedImage s;
     classification := classification s;
     isAnalyzing := isAnalyzing s;
     streamRef := None;
     liveStreams := liveStreams s ∖ {[ stream ]};
     pending := pending s;
     effects := effects s |}.

Definition register (cbs : list Callback) (s : State) : State :=
  {| isCapturing := isCapturing s;
     isInitializingCamera := isInitializingCamera s;
     capturedImage := capturedImage s;
     classification := classification s;
     isAnalyzing := isAnalyzing s;
     streamRef := streamRef s;
     liveStreams := liveStreams s;
     pending := pending s ++ cbs;
     effects := effects s |}.

(** The registrations without one registration of [cb], the oldest:
    every [addEventListener] and every [setTimeout] is a registration
    of its own. *)
Fixpoint remove_one (cb : Callback) (l : list Callback) : list Callback :=
  match l with
  | [] => []
  | c :: rest => if decide (c = cb) then rest else c :: remove_one cb rest
  end.

Definition unregister (cb : Callback) (s : State) : State :=
  {| isCapturing := isCapturing s;
     isInitializingCamera := isInitializingCamera s;
     capturedImage := capturedImage s;
     classification := classification s;
     isAnalyzing := isAnalyzing s;
     streamRef := streamRef s;
     liveStreams := liveStreams s;
     pending := remove_one cb (pending s);
     effects := effects s |}.

Definition perform (e : Effect) (s : State) : State :=
  {| isCapturing := isCapturing s;
     isInitializingCamera := isInitializingCamera s;
     capturedImage := capturedImage s;
     classification := classification s;
     isAnalyzing := isAnalyzing s;
     streamRef := streamRef s;
     liveStreams := liveStreams s;
     pending := pending s;
     effects := effects s ++ [e] |}.

Definition alert (message : string) : State -> State := perform (Alert message).

(** *** MediaDeviceAdapter: [startCamera], [stopCamera] *)

(** How [getUserMedia] settles. *)
Inductive Rejection : Type :=
| DOMError (name message : string)   (* [error instanceof Error] *)
| NotAnError.

Inductive Acquire : Type :=
| Resolves (stream : MediaStream)
| Rejects (r : Rejection).

(** The surroundings of one run of [startCamera]: whether
    [navigator.mediaDevices.getUserMedia] exists, how the call with the
    preferred constraints settles, how the call with [{video: true}]
    settles, and whether the [<video>] element is mounted
    ([videoRef.current] is not null). *)
Record CameraEnv : Type := {
  supported : bool;
  preferred : Acquire;
  basic : Acquire;
  videoMounted : bool
}.

Definition msgUnsupported : string :=
  "Camera is not supported in this browser. Please use a modern browser like Chrome, Firefox, or Safari.".
Definition msgNotAllowed : string :=
  "Camera access was denied. Please allow camera permissions and try again.".
Definition msgNotFound : string := "No camera found on this device.".
Definition msgNotSupported : string := "Camera is not supported in this browser.".
Definition msgOverconstrained : string :=
  "Camera constraints could not be satisfied. Trying with basic settings...".
Definition msgBasicFailed : string :=
  "Unable to access camera even with basic settings.".
Definition msgUnknown (message : string) : string :=
  "Unable to access camera: " +:+ message +:+
  ". Please ensure you have granted camera permissions and are using HTTPS.".
Definition msgNotError : string :=
  "Unable to access camera. Please ensure you have granted camera permissions.".

(** The [catch (error)] block of [startCamera]. *)
Definition startCamera_catch (env : CameraEnv) (r : Rejection) (s : State)
  : State :=
  match r with
  | DOMError name message =>
      if String.eqb name "NotAllowedError" then alert msgNotAllowed s
      else if String.eqb name "NotFoundError" then alert msgNotFound s
      else if String.eqb name "NotSupportedError" then alert msgNotSupported s
      else if String.eqb name "OverconstrainedError" then
        let s := alert msgOverconstrained s in
        match basic env with
        | Resolves fallbackStream =>
            let s := holdStream fallbackStream s in
            if videoMounted env then register [OnLoadedMetadata] s else s
        | Rejects _ => setIsInitializingCamera false (alert msgBasicFailed s)
        end
      else setIsInitializingCamera false (alert (msgUnknown message) s)
  | NotAnError => setIsInitializingCamera false (alert msgNotError s)
  end.

(** [startCamera] up to its [await]: the flag is raised, and a browser
    without [getUserMedia] ends the function here. *)
Definition startCamera_begin (env : CameraEnv) (s : State) : State :=
  let s := setIsInitializingCamera true s in
  if negb (supported env) then
    setIsInitializingCamera false (alert msgUnsupported s)
  else s.

(** [startCamera] from the moment [getUserMedia] settles to the end.
    The listener for [loadedmetadata] and the timer that the function
    registers when the [<video>] element is mounted run later, see
    [run]. *)
Definition startCamera_resume (env : CameraEnv) (s : State) : State :=
  let s :=
    match preferred env with
    | Resolves stream =>
        let s := holdStream stream s in
        if videoMounted env
        then register [LoadedMetadataListener; Timeout3000] s
        else s
    | Rejects r => startCamera_catch env r s
    end in
  setIsInitializingCamera false s.

Definition startCamera (env : CameraEnv) (s : State) : State :=
  let s := startCamera_begin env s in
  if supported env then startCamera_resume env s else s.

(** The listener of [loadedmetadata].  It removes itself only
    [if (videoRef.current)], and from that element: [current] tells
    whether [videoRef.current] is the element that fired the event, on
    which the listener is registered.  Otherwise the registration
    stays. *)
Definition handleLoadedMetadata (current : bool) (s : State) : State :=
  let s := setIsInitializingCamera false (setIsCapturing true s) in
  if current then unregister LoadedMetadataListener s else s.

(** The callback of [setTimeout(..., 3000)].  [isCapturing] in it is
    the value that the closure of [useCallback(..., [])] has captured,
    [false]. *)
Definition timeoutFallback (s : State) : State :=
  match streamRef s with
  | Some _ => setIsInitializingCamera false (setIsCapturing true s)
  | None => s
  end.

(** One registered callback runs; [current] as in
    [handleLoadedMetadata].  A timer that has fired is gone; the
    handler assigned to [onloadedmetadata] stays. *)
Definition run (current : bool) (cb : Callback) (s : State) : State :=
  if bool_decide (cb ∈ pending s) then
    match cb with
    | LoadedMetadataListener => handleLoadedMetadata current s
    | OnLoadedMetadata => setIsCapturing true s
    | Timeout3000 => timeoutFallback (unregister Timeout3000 s)
    end
  else s.

Definition stopCamera (s : State) : State :=
  let s :=
    match streamRef s with
    | Some stream => releaseStream stream s
    | None => s
    end in
  setIsInitializingCamera false (setIsCapturing false s).

Definition resetApp (s : State) : State :=
  setIsInitializingCamera false
    (setIsCapturing false
      (setIsAnalyzing false
        (setClassification None
          (setCapturedImage None s)))).

(** *** FrameCapturer: [captureImage] *)

Record Video : Type := { videoWidth : N; videoHeight : N }.

(** A canvas: whether [getContext("2d")] gives a context, and the
    base64 text of the JPEG that encodes the drawn frame. *)
Record Canvas : Type := { context2d : bool; jpegBase64 : string }.

(** [canvas.toDataURL("image/jpeg", 0.8)] on a canvas of non-zero
    size. *)
Definition toDataURL (canvas : Canvas) : string :=
  "data:image/jpeg;base64," +:+ jpegBase64 canvas.

(** [videoRef.current] and [canvasRef.current]. *)
Record Dom : Type := {
  videoRef : option Video;
  canvasRef : option Canvas
}.

Definition msgVideoNotReady : string :=
  "Video is not ready yet. Please wait and try again.".
Definition msgNoContext : string :=
  "Unable to get canvas context. Please try again.".
Definition msgNotMounted : string :=
  "Camera or canvas not ready. Please try again.".

(** [analyzeWaste] up to its first [await]: this much runs inside the
    handler that calls it. *)
Definition analyzeWaste_begin (imageData : string) (s : State) : State :=
  perform (Fetch imageData) (setIsAnalyzing true s).

Definition captureImage (dom : Dom) (s : State) : State :=
  match videoRef dom, canvasRef dom with
  | Some video, Some canvas =>
      if ((videoWidth video =? 0) || (videoHeight video =? 0))%N then
        alert msgVideoNotReady s
      else if context2d canvas then
        let imageDataUrl := toDataURL canvas in
        analyzeWaste_begin imageDataUrl
          (stopCamera (setCapturedImage (Some imageDataUrl) s))
      else alert msgNoContext s
  | _, _ => alert msgNotMounted s
  end.

(** *** ClassificationClient: [analyzeWaste] *)

(** The response of [fetch("/api/classify-waste", ...)]: its [ok] flag
    and what [json()] settles to. *)
Record Response : Type := {
  ok : bool;
  json : JS.Exn XimilarResult
}.

(** The surroundings of one run of [analyzeWaste]: whether reading the
    data URL back ([fetch(imageData)], [response.blob()]) succeeds, how
    the call to the proxy settles, and the draw of [Math.random()]. *)
Record Network : Type := {
  dataUrl : JS.Exn unit;
  classify : JS.Exn Response;
  random : Q
}.

Definition mockResults : list ClassificationResult :=
  [ {| type := Some biodegradable;
       confidence := 92;
       item := "Food waste";
       tips := Some "Compost this organic material to create nutrient-rich soil for plants!" |};
    {| type := Some recyclable;
       confidence := 88;
       item := "Plastic bottle";
       tips := Some "Clean and place in recycling bin. Check local recycling guidelines for proper disposal." |};
    {| type := Some non_biodegradable;
       confidence := 95;
       item := "Styrofoam container";
       tips := Some "This goes to general waste. Consider using reusable containers in the future!" |} ].

(** [arr[i]] for a number [i] that is an integer. *)
Definition element {A : Type} (arr : list A) (i : Z) : option A :=
  if (i <? 0)%Z then None else arr !! Z.to_nat i.

(** [mockResults[Math.floor(Math.random() * mockResults.length)]],
    with [random] the draw of [Math.random()]. *)
Definition randomResult (random : Q) : option ClassificationResult :=
  element mockResults
    (JS.Math_floor
       (JS.mul (JS.Math_random random)
          (inject_Z (Z.of_nat (List.length mockResults))))).

(** A computation that threads the state and may throw. *)
Definition Act (A : Type) : Type := State -> JS.Exn A * State.

#[global] Instance Act_ret : MRet Act := fun A a s => (JS.Return a, s).
#[global] Instance Act_bind : MBind Act := fun A B k m s =>
  match m s with
  | (JS.Return a, s') => k a s'
  | (JS.Throw e, s') => (JS.Throw e, s')
  end.

Definition lift {A : Type} (m : JS.Exn A) : Act A := fun s => (m, s).
Definition doState (f : State -> State) : Act unit :=
  fun s => (JS.Return tt, f s).

(** [try { body } catch (error) { handler }] on such computations: the
    state changes made before the throw stay. *)
Definition tryCatch (body : Act unit) (handler : JS.Error -> State -> State)
  (s : State) : State :=
  match body s with
  | (JS.Return _, s') => s'
  | (JS.Throw e, s') => handler e s'
  end.

(** The [try] block of [analyzeWaste], after the first [await]. *)
Definition analyzeWaste_try (net : Network) : Act unit :=
  _ ← lift (dataUrl net);
  _ ← doState (perform (Fetch "/api/classify-waste"));
  ximilarResponse ← lift (classify net);
  _ ← (if negb (ok ximilarResponse)
       then lift (JS.Throw (JS.ErrorMsg "Classification failed"))
       else mret tt);
  result ← lift (json ximilarResponse);
  processedResult ← lift (processXimilarResult result);
  doState (setClassification (Some processedResult)).

(** The [catch] block of [analyzeWaste]. *)
Definition analyzeWaste_catch (net : Network) (error : JS.Error) (s : State)
  : State :=
  setClassification (randomResult (random net)) s.

(** [analyzeWaste] from its first [await] to the end. *)
Definition analyzeWaste_resume (net : Network) (s : State) : State :=
  setIsAnalyzing false
    (tryCatch (analyzeWaste_try net) (analyzeWaste_catch net) s).

Definition analyzeWaste (net : Network) (imageData : string) (s : State)
  : State :=
  analyzeWaste_resume net (analyzeWaste_begin imageData s).

(** *** What the component renders *)

(** The card with the Start Camera button is shown: the Idle state of
    the specification. *)
Definition showsStart (s : State) : bool :=
  negb (isCapturing s) && negb (JS.truthy (capturedImage s))
  && negb (isInitializingCamera s).

(** The card with the result and the Analyze Another Item button is
    shown: the Captured(Done) state of the specification. *)
Definition showsResult (s : State) : bool :=
  JS.truthy (capturedImage s) && negb (isAnalyzing s)
  && bool_decide (is_Some (classification s)).

(** *** The handlers as the user and the browser trigger them

    One step is one handler run to the end, the call it awaits
    settled: a press on a button that the component renders in that
    state, a registered callback, or the end of the analysis under
    way. *)
Inductive step : State -> State -> Prop :=
| step_start (env : CameraEnv) (s : State) :
    showsStart s = true -> step s (startCamera env s)
| step_callback (current : bool) (cb : Callback) (s : State) :
    step s (run current cb s)
| step_capture (dom : Dom) (s : State) :
    isCapturing s = true -> step s (captureImage dom s)
| step_cancel (s : State) :
    isCapturing s = true -> step s (stopCamera s)
| step_analyzed (net : Network) (s : State) :
    isAnalyzing s = true -> step s (analyzeWaste_resume net s)
| step_reset (s : State) :
    showsResult s = true -> step s (resetApp s).

Inductive reachable : State -> Prop :=
| reachable_initial : reachable initialState
| reachable_step (s s' : State) : reachable s -> step s s' -> reachable s'.

(** ** ClassificationProxy: the route handler [POST] *)

Module Proxy.

(** An element of the array that [JSON.parse] gives: null, or a value
    with its [_base64] field, [None] when it has none. *)
Inductive RequestRecord : Type :=
| RecordNull
| RecordValue (base64 : option string).

(** The request as the handler reads it: what
    [JSON.parse(formData.get("records"))] gives, which is null
    ([None]: the text [null], or no field [records] in the form) or a
    list of elements; a throw when [request.formData()] rejects or
    [JSON.parse] throws.  A parsed value that is neither null nor an
    array is given by the list of what its index 0 holds. *)
Record Request : Type := {
  parsedRecords : JS.Exn (option (list RequestRecord))
}.

(** The response of the provider: [ok], [status], and what [json()]
    settles to. *)
Record ProviderResponse : Type := {
  ok : bool;
  status : nat;
  json : JS.Exn XimilarResult
}.

(** What [NextResponse.json(body)] sends: status 200 and the body. *)
Record NextResponse : Type := {
  res_status : nat;
  body : XimilarResult
}.

Definition NextResponse_json (b : XimilarResult) : NextResponse :=
  {| res_status := 200; body := b |}.

Definition synthetic (l : string) (p : Q) : XimilarResult :=
  Payload (Some [ {| outputs := OutputsArray [ {| label := Some l; prob := p |} ] |} ]).

(** The [try] block of [POST]; [provider] is how the call to the
    provider settles. *)
Definition POST_try (request : Request) (provider : JS.Exn ProviderResponse)
  : JS.Exn NextResponse :=
  parsed ← parsedRecords request;
  base64Image ← match parsed with
                | None => JS.Throw JS.TypeError                    (* null[0] *)
                | Some [] => JS.Throw JS.TypeError                 (* undefined._base64 *)
                | Some (RecordNull :: _) => JS.Throw JS.TypeError  (* null._base64 *)
                | Some (RecordValue b :: _) => JS.Return b
                end;
  ximilarResponse ← provider;
  if negb (ok ximilarResponse) then
    JS.Return (NextResponse_json (synthetic "plastic_bottle" (85 # 100)))
  else
    result ← json ximilarResponse;
    JS.Return (NextResponse_json result).

Definition POST (request : Request) (provider : JS.Exn ProviderResponse)
  : NextResponse :=
  JS.try_catch (POST_try request provider)
    (fun error => NextResponse_json (synthetic "general_waste" (75 # 100))).

End Proxy.

(** The response that the client's [fetch] builds from what the proxy
    sent: [ok] is a status from 200 to 299. *)
Definition clientResponse (r : Proxy.NextResponse) : Response :=
  {| ok := ((200 <=? Proxy.res_status r) && (Proxy.res_status r <=? 299))%nat;
     json := JS.Return (Proxy.body r) |}.

(** ** What the component shows of a result *)

(** The string that a category is in the source. *)
Definition typeName (t : WasteClassification) : string :=
  match t with
  | biodegradable => "biodegradable"
  | non_biodegradable => "non-biodegradable"
  | recyclable => "recyclable"
  end.

(** [s.replace(a, b)] for one-character strings [a] and [b]: the first
    occurrence only. *)
Fixpoint replace_first (a b : ascii) (s : string) : string :=
  match s with
  | EmptyString => EmptyString
  | String c rest =>
      if Ascii.eqb c a then String b rest
      else String c (replace_first a b rest)
  end.

(** [s.toUpperCase()] for a string [s] of ASCII characters, as the
    names of the categories are. *)
Definition toUpperCase (s : string) : string :=
  JS.map_chars JS.char_toUpperCase s.

Inductive Icon : Type := Leaf | Recycle | Trash2.

(** An icon element: the component and its [className]. *)
Record IconElement : Type := { icon : Icon; iconClass : string }.

(** The [switch] has no default: any other value gives [undefined]. *)
Definition getClassificationIcon (t : option WasteClassification)
  : option IconElement :=
  match t with
  | Some biodegradable =>
      Some {| icon := Leaf; iconClass := "h-8 w-8 text-green-600" |}
  | Some recyclable =>
      Some {| icon := Recycle; iconClass := "h-8 w-8 text-blue-600" |}
  | Some non_biodegradable =>
      Some {| icon := Trash2; iconClass := "h-8 w-8 text-red-600" |}
  | None => None
  end.

Definition getClassificationColor (t : option WasteClassification)
  : option string :=
  match t with
  | Some biodegradable => Some "bg-green-100 text-green-800 border-green-200"
  | Some recyclable => Some "bg-blue-100 text-blue-800 border-blue-200"
  | Some non_biodegradable => Some "bg-red-100 text-red-800 border-red-200"
  | None => None
  end.

(** What the result card shows of a classification: the icon, the
    heading, the item and the confidence of the line below it, the
    class and the text of the badge, and the tip. *)
Record ResultCard : Type := {
  cardIcon : option IconElement;
  heading : string;
  shownItem : string;
  shownConfidence : Z;
  badgeClass : string;
  badgeText : string;
  shownTip : option string
}.

(** [classification.type.replace("-", " ")]: a [TypeError] when the
    type is [undefined]. *)
Definition typeHeading (c : ClassificationResult) : JS.Exn string :=
  match type c with
  | Some t => JS.Return (replace_first "-" " " (typeName t))
  | None => JS.Throw JS.TypeError
  end.

(** The branch [classification ? (...)] of the result card, its
    expressions evaluated in the order of the source. *)
Definition renderClassification (c : ClassificationResult)
  : JS.Exn ResultCard :=
  let i := getClassificationIcon (type c) in
  h ← typeHeading c;
  let color := getClassificationColor (type c) in
  b ← typeHeading c;
  JS.Return
    {| cardIcon := i;
       heading := h;
       shownItem := item c;
       shownConfidence := confidence c;
       badgeClass := default "undefined" color +:+ " px-3 py-1";
       badgeText := toUpperCase b;
       shownTip := tips c |}.

(** The body of the card under the captured image. *)
Inductive CardBody : Type :=
| Analyzing                       (* the spinner *)
| Classified (card : ResultCard)
| Blank.                          (* [null] *)

(** What [TaponTamaApp] returns: which cards are rendered, and for the
    card of the captured image its [src] and its body. *)
Record View : Type := {
  startCard : bool;
  initializingCard : bool;
  captureCard : bool;
  resultCard : option (string * CardBody)
}.

Definition render (s : State) : JS.Exn View :=
  shown ←
    match capturedImage s with
    | Some image =>
        if JS.truthy (Some image) then
          if isAnalyzing s then JS.Return (Some (image, Analyzing))
          else
            match classification s with
            | Some c =>
                card ← renderClassification c;
                JS.Return (Some (image, Classified card))
            | None => JS.Return (Some (image, Blank))
            end
        else JS.Return None
    | None => JS.Return None
    end;
  JS.Return
    {| startCard := showsStart s;
       initializingCard := isInitializingCamera s;
       captureCard := isCapturing s;
       resultCard := shown |}.

(** *** The handlers with the [<video>] element mounted as rendered

    The [<video>] element is inside [{isCapturing && (...)}]: when
    [startCamera] runs, [videoRef.current] is not null exactly when
    [isCapturing] is true. *)
Inductive rendered_step : State -> State -> Prop :=
| rendered_start (env : CameraEnv) (s : State) :
    showsStart s = true -> videoMounted env = isCapturing s ->
    rendered_step s (startCamera env s)
| rendered_callback (current : bool) (cb : Callback) (s : State) :
    rendered_step s (run current cb s)
| rendered_capture (dom : Dom) (s : State) :
    isCapturing s = true -> rendered_step s (captureImage dom s)
| rendered_cancel (s : State) :
    isCapturing s = true -> rendered_step s (stopCamera s)
| rendered_analyzed (net : Network) (s : State) :
    isAnalyzing s = true -> rendered_step s (analyzeWaste_resume net s)
| rendered_reset (s : State) :
    showsResult s = true -> rendered_step s (resetApp s).

Inductive rendered_reachable : State -> Prop :=
| rendered_initial : rendered_reachable initialState
| rendered_next (s s' : State) :
    rendered_reachable s -> rendered_step s s' -> rendered_reachable s'.

(** ** Vocabulary of the properties *)

(** A payload of the response shape
    [{records: [{outputs: l}, ...rest]}]. *)
Definition payloadOf (l : list Prediction) (rest : list XRecord)
  : XimilarResult :=
  Payload (Some ({| outputs := OutputsArray l |} :: rest)).

(** [p] is, in [l], the first prediction of maximum probability: it
    stands at some index [i], no prediction of [l] has a greater
    probability, and every prediction before [i] has a smaller one. *)
Definition first_maximum (l : list Prediction) (p : Prediction) : Prop :=
  ∃ i : nat,
    l !! i = Some p
    ∧ (∀ q, q ∈ l → (prob q <= prob p)%Q)
    ∧ (∀ (j : nat) q, j < i → l !! j = Some q → (prob q < prob p)%Q).

(** What [reduce] has in its accumulator after the predictions [pre]. *)
Definition fold_inv (pre : list Prediction) (acc : option Prediction) : Prop :=
  match acc with
  | None => ∀ q, q ∈ pre → (prob q <= 0)%Q
  | Some p => (0 < prob p)%Q ∧ first_maximum pre p
  end.

(** The first record's outputs list is absent or empty. *)
Definition outputs_absent_or_empty (records : option (list XRecord)) : Prop :=
  match records with
  | None => True
  | Some [] => True
  | Some (r :: _) => outputs r = OutputsAbsent ∨ outputs r = OutputsArray []
  end.

(** The predictions among the elements of an array. *)
Definition objects (l : list Element) : list Prediction :=
  omap (λ e, match e with ElementObject p => Some p | _ => None end) l.

(** An element of the array is null. *)
Fixpoint has_null (l : list Element) : bool :=
  match l with
  | [] => false
  | ElementNull :: _ => true
  | _ :: rest => has_null rest
  end.

(** Every probability of the payload lies between 0 and 1. *)
Definition probabilities_in_range (x : XimilarResult) : Prop :=
  match x with
  | Payload (Some (r :: _)) =>
      match outputs r with
      | OutputsElements l =>
          Forall (λ q, (0 <= prob q)%Q ∧ (prob q <= 1)%Q) (objects l)
      | _ => True
      end
  | _ => True
  end.

(** A complete classification result: a category of the enumeration, a
    confidence between 0 and 100, and a tip (the label is a string by
    its type). *)
Definition validResult (r : ClassificationResult) : Prop :=
  is_Some (type r) ∧ (0 ≤ confidence r ≤ 100)%Z ∧ is_Some (tips r).

(** No label of the payload is, in lower case, a name that the mapping
    table inherits from [Object.prototype]. *)
Definition no_prototype_label (x : XimilarResult) : Prop :=
  match x with
  | Payload (Some (r :: _)) =>
      match outputs r with
      | OutputsElements l =>
          Forall (λ q, ∀ raw, label q = Some raw →
                       JS.toLowerCase raw ∉ JS.Object_prototype_keys)
                 (objects l)
      | _ => True
      end
  | _ => True
  end.

(** The body that the proxy answers with, if any. *)
Definition receivedPayload (net : Network) : option XimilarResult :=
  match classify net with
  | JS.Return r =>
      match json r with
      | JS.Return x => Some x
      | JS.Throw _ => None
      end
  | JS.Throw _ => None
  end.

(** The call to the proxy throws or answers with a status that is not
    a success. *)
Definition classifyFails (net : Network) : Prop :=
  match classify net with
  | JS.Throw _ => True
  | JS.Return r => ok r = false
  end.

(** The provider call of the proxy throws or answers with a status
    that is not a success. *)
Definition providerFails (provider : JS.Exn Proxy.ProviderResponse) : Prop :=
  match provider with
  | JS.Throw _ => True
  | JS.Return r => Proxy.ok r = false
  end.

(** The video has produced no frame of non-zero width and height. *)
Definition frameNotReady (dom : Dom) : Prop :=
  match videoRef dom with
  | Some video => videoWidth video = 0%N ∨ videoHeight video = 0%N
  | None => True
  end.


(** The conditions under which [captureImage] takes a picture. *)
Definition captures (dom : Dom) : Prop :=
  ∃ video canvas,
    videoRef dom = Some video ∧ canvasRef dom = Some canvas
    ∧ videoWidth video ≠ 0%N ∧ videoHeight video ≠ 0%N
    ∧ context2d canvas = true.

(** *** The item label in the words of the specification

    Underscores become spaces; the text is cut into words at the
    spaces; the first letter of each word is capitalized; the words are
    put together again with one space between them. *)

Fixpoint split_spaces (s : string) : list string :=
  match s with
  | EmptyString => [EmptyString]
  | String c rest =>
      if Ascii.eqb c " "%char then EmptyString :: split_spaces rest
      else
        match split_spaces rest with
        | w :: ws => String c w :: ws
        | [] => [String c EmptyString]
        end
  end.

Definition capitalize_first (w : string) : string :=
  match w with
  | EmptyString => EmptyString
  | String c rest => String (JS.char_toUpperCase c) rest
  end.

Fixpoint join_spaces (ws : list string) : string :=
  match ws with
  | [] => EmptyString
  | w :: ws' =>
      match ws' with
      | [] => w
      | _ => w +:+ String " "%char (join_spaces ws')
      end
  end.

Definition itemLabel_spec (l : string) : string :=
  join_spaces (capitalize_first <$> split_spaces (JS.replace_underscores l)).

(** Every character of [s] satisfies [P]. *)
Fixpoint all_chars (P : ascii -> bool) (s : string) : bool :=
  match s with
  | EmptyString => true
  | String c rest => P c && all_chars P rest
  end.

(** An ASCII character: a string of such characters is its own
    UTF-8 encoding, and [toUpperCase] of the source changes nothing in
    it but the letters a to z. *)
Definition is_ascii (c : ascii) : bool := (N_of_ascii c <? 128)%N.

(** The characters of the provider vocabulary, and the space. *)
Definition label_char (c : ascii) : bool :=
  JS.is_word_char c || Ascii.eqb c " "%char.

(** The accumulator of the fold is null or a prediction of probability
    greater than 0. *)
Definition positive_or_null (acc : option Prediction) : Prop :=
  match acc with
  | Some p => (0 < prob p)%Q
  | None => True
  end.

(** The payloads on which [processXimilarResult] throws: null, outputs
    that is not an array, an array with a null element, and a selected
    prediction (the first of maximum probability, greater than 0) whose
    label is not a string. *)
Definition throwing (x : XimilarResult) : Prop :=
  match x with
  | PayloadNull => True
  | Payload (Some (r :: _)) =>
      match outputs r with
      | OutputsNotArray => True
      | OutputsElements l =>
          ElementNull ∈ l
          ∨ ∃ p, first_maximum (objects l) p ∧ (0 < prob p)%Q
                 ∧ label p = None
      | OutputsAbsent => False
      end
  | Payload _ => False
  end.

(** The number of registrations of [cb] in [l]. *)
Definition occurrences (cb : Callback) (l : list Callback) : nat :=
  count_occ Callback_eq_dec l cb.

(** Two states that differ at most in the registered callbacks. *)
Definition same_cells (s s' : State) : Prop :=
  isCapturing s = isCapturing s'
  ∧ isInitializingCamera s = isInitializingCamera s'
  ∧ capturedImage s = capturedImage s'
  ∧ classification s = classification s'
  ∧ isAnalyzing s = isAnalyzing s'
  ∧ streamRef s = streamRef s'
  ∧ liveStreams s = liveStreams s'
  ∧ effects s = effects s'.

(** No character of [s] is an underscore. *)
Definition no_underscore (s : string) : bool :=
  all_chars (λ c, negb (Ascii.eqb c "_"%char)) s.

(** ** Sample inputs *)

(** The tie of the specification's scenario. *)
Definition sampleTie : list Prediction :=
  [ {| label := Some "battery"; prob := 6 # 10 |};
    {| label := Some "aluminum_can"; prob := 6 # 10 |} ].

Definition sampleZeros : list Prediction :=
  [ {| label := Some "battery"; prob := 0 |};
    {| label := Some "paper"; prob := 0 |} ].

Definition sampleTwo : list Prediction :=
  [ {| label := Some "glass_bottle"; prob := 3 # 8 |};
    {| label := Some "fruit_peel"; prob := 1 # 8 |} ].

(** The Number that the literal [0.015] denotes: it is a little less
    than 15/1000. *)
Definition sampleHalfway : Q := 1080863910568919 # 72057594037927936.

(** The Number that the literal [0.6666666666666666] denotes: it is
    less than 2/3. *)
Definition sampleTwoThirds : Q := 6004799503160661 # 9007199254740992.

Definition sampleImage : string := "data:image/jpeg;base64,AAAA".

(** The call to the proxy throws; [Math.random()] gives 0.5. *)
Definition sampleNetDown : Network :=
  {| dataUrl := JS.Return tt;
     classify := JS.Throw JS.NetworkError;
     random := 1 # 2 |}.

Definition sampleRequest : Proxy.Request :=
  {| Proxy.parsedRecords :=
       JS.Return (Some [Proxy.RecordValue (Some "AAAA")]) |}.

(** The provider answers 503. *)
Definition sample503 : JS.Exn Proxy.ProviderResponse :=
  JS.Return {| Proxy.ok := false; Proxy.status := 503;
               Proxy.json := JS.Throw JS.SyntaxError |}.

(** The video and the canvas are mounted; no frame has arrived. *)
Definition sampleNoFrame : Dom :=
  {| videoRef := Some {| videoWidth := 0; videoHeight := 0 |};
     canvasRef := Some {| context2d := true; jpegBase64 := "" |} |}.


(** [getUserMedia] resolves with the stream 1. *)
Definition sampleCamera (mounted : bool) : CameraEnv :=
  {| supported := true;
     preferred := Resolves 1;
     basic := Rejects NotAnError;
     videoMounted := mounted |}.

Definition sampleUnmapped : Prediction :=
  {| label := Some "Banana_Peel"; prob := 1 # 2 |}.

(** The proxy answers with a success and the plastic bottle payload;
    [Math.random()] gives 0.5. *)
Definition sampleNetOk : Network :=
  {| dataUrl := JS.Return tt;
     classify :=
       JS.Return
         {| ok := true;
            json := JS.Return
                      (payloadOf [ {| label := Some "plastic_bottle";
                                      prob := 85 # 100 |} ] []) |};
     random := 1 # 2 |}.


(** [getUserMedia] rejects with the error [name]; the call with basic
    constraints settles as [fallback]. *)
Definition sampleRejected (name : string) (fallback : Acquire) : CameraEnv :=
  {| supported := true;
     preferred := Rejects (DOMError name "denied");
     basic := fallback;
     videoMounted := false |}.

(** The stream 1 is live and forgotten; the stream 2 is held and the
    preview is shown. *)
Definition sampleLeaked : State :=
  {| isCapturing := true;
     isInitializingCamera := false;
     capturedImage := None;
     classification := None;
     isAnalyzing := false;
     streamRef := Some 2%nat;
     liveStreams := {[ 1%nat; 2%nat ]};
     pending := [];
     effects := [] |}.

(** * Properties *)

Local Open Scope list_scope.

(** ** Rounding to the nearest Number *)

Lemma nearest_even_floor (q : Q) :
  (Qfloor q <= Binary64.nearest_even q <= Qfloor q + 1)%Z.
Proof.
  unfold Binary64.nearest_even.
  destruct (Qcompare _ _); [destruct (Z.even _)| |]; lia.
Qed.

Lemma nearest_even_Z (z : Z) : Binary64.nearest_even (inject_Z z) = z.
Proof.
  unfold Binary64.nearest_even. rewrite Qfloor_Z.
  destruct (Qcompare_spec (inject_Z z - inject_Z z) (1 # 2)) as [H|H|H];
    [exfalso; lra|done|exfalso; lra].
Qed.

Lemma nearest_even_comp (q q' : Q) :
  (q == q')%Q -> Binary64.nearest_even q = Binary64.nearest_even q'.
Proof.
  intros H. unfold Binary64.nearest_even.
  rewrite (Qfloor_comp _ _ H).
  assert (q - inject_Z (Qfloor q') == q' - inject_Z (Qfloor q'))%Q as E
    by (rewrite H; reflexivity).
  by rewrite (Qcompare_comp _ _ E (1 # 2)%Q (1 # 2)%Q (Qeq_refl _)).
Qed.

Lemma nearest_even_mono (q q' : Q) :
  (q <= q')%Q -> (Binary64.nearest_even q <= Binary64.nearest_even q')%Z.
Proof.
  intros H. pose proof (Qfloor_resp_le _ _ H) as Hf.
  destruct (Z.eq_dec (Qfloor q) (Qfloor q')) as [E | E].
  - unfold Binary64.nearest_even. rewrite E.
    destruct (Qcompare_spec (q - inject_Z (Qfloor q')) (1 # 2)) as [H1|H1|H1],
             (Qcompare_spec (q' - inject_Z (Qfloor q')) (1 # 2)) as [H2|H2|H2];
      try destruct (Z.even _); try lia; exfalso; lra.
  - pose proof (nearest_even_floor q). pose proof (nearest_even_floor q').
    lia.
Qed.

Lemma nearest_even_error (q : Q) :
  (q - (1 # 2) <= inject_Z (Binary64.nearest_even q)
   /\ inject_Z (Binary64.nearest_even q) <= q + (1 # 2))%Q.
Proof.
  unfold Binary64.nearest_even.
  pose proof (Qfloor_le q) as Hlo. pose proof (Qlt_floor q) as Hhi.
  rewrite inject_Z_plus in Hhi. change (inject_Z 1) with 1%Q in Hhi.
  destruct (Qcompare_spec (q - inject_Z (Qfloor q)) (1 # 2)) as [H1|H1|H1];
    try destruct (Z.even _);
    rewrite ?inject_Z_plus; change (inject_Z 1) with 1%Q;
    generalize dependent (inject_Z (Qfloor q)); intros; split; lra.
Qed.

Lemma quantum_pos (n : Q) : (0 < Binary64.quantum n)%Z.
Proof. unfold Binary64.quantum. apply Z.pow_pos_nonneg; lia. Qed.

Lemma inject_Z_pos (z : Z) : (0 < z)%Z -> (0 < inject_Z z)%Q.
Proof. intros H. change 0%Q with (inject_Z 0). by rewrite <- Zlt_Qlt. Qed.

Lemma Qdiv_Z_le (a : Q) (c u : Z) :
  (0 < u)%Z -> (a <= inject_Z (c * u))%Q -> (a / inject_Z u <= inject_Z c)%Q.
Proof.
  intros Hu H. apply Qle_shift_div_r; [by apply inject_Z_pos|].
  by rewrite <- inject_Z_mult.
Qed.

Lemma Qdiv_Z_ge (a : Q) (c u : Z) :
  (0 < u)%Z -> (inject_Z (c * u) <= a)%Q -> (inject_Z c <= a / inject_Z u)%Q.
Proof.
  intros Hu H. apply Qle_shift_div_l; [by apply inject_Z_pos|].
  by rewrite <- inject_Z_mult.
Qed.

Lemma Qdiv_Z_mono (a b : Q) (u : Z) :
  (0 < u)%Z -> (a <= b)%Q -> (a / inject_Z u <= b / inject_Z u)%Q.
Proof.
  intros Hu H. unfold Qdiv. apply Qmult_le_compat_r; [exact H|].
  apply Qinv_le_0_compat, Qlt_le_weak. by apply inject_Z_pos.
Qed.

Lemma round_scaled_mono (n n' : Q) :
  (0 <= n)%Q -> (n <= n')%Q ->
  (Binary64.round_scaled n <= Binary64.round_scaled n')%Z.
Proof.
  intros H0 Hle. unfold Binary64.round_scaled, Binary64.quantum.
  pose proof (Qfloor_resp_le _ _ Hle) as Hf.
  assert (0 <= Qfloor n)%Z as Hf0.
  { change 0%Z with (Qfloor 0). by apply Qfloor_resp_le. }
  pose proof (Z.log2_le_mono _ _ Hf) as Hlog.
  set (k := Z.max 0 (Z.log2 (Qfloor n) - 52)).
  set (k' := Z.max 0 (Z.log2 (Qfloor n') - 52)).
  assert (0 <= k)%Z as Hk by lia.
  assert (0 < 2 ^ k)%Z as Hu by (apply Z.pow_pos_nonneg; lia).
  assert (0 < 2 ^ k')%Z as Hu' by (apply Z.pow_pos_nonneg; lia).
  destruct (Z.eq_dec k k') as [E | E].
  - rewrite <- E. apply Z.mul_le_mono_nonneg_r; [lia|].
    apply nearest_even_mono. by apply Qdiv_Z_mono.
  - assert (k < k')%Z as Hlt by lia.
    apply Z.le_trans with (2 ^ (k' + 52))%Z.
    + replace (2 ^ (k' + 52))%Z with (2 ^ (k' + 52 - k) * 2 ^ k)%Z
        by (rewrite <- Z.pow_add_r by lia; f_equal; lia).
      apply Z.mul_le_mono_nonneg_r; [lia|].
      rewrite <- (nearest_even_Z (2 ^ (k' + 52 - k))).
      apply nearest_even_mono, Qdiv_Z_le; [exact Hu|].
      rewrite <- Z.pow_add_r by lia.
      replace (k' + 52 - k + k)%Z with (k' + 52)%Z by lia.
      apply Qle_trans with (inject_Z (Qfloor n + 1));
        [apply Qlt_le_weak, Qlt_floor|].
      rewrite <- Zle_Qle.
      assert (Qfloor n < 2 ^ (k' + 52))%Z; [|lia].
      destruct (Z.eq_dec (Qfloor n) 0) as [-> | Hne].
      { apply Z.pow_pos_nonneg; lia. }
      apply Z.lt_le_trans with (2 ^ Z.succ (Z.log2 (Qfloor n)))%Z.
      { apply Z.log2_spec. lia. }
      apply Z.pow_le_mono_r; lia.
    + rewrite Z.pow_add_r by lia. rewrite (Z.mul_comm (2 ^ k')).
      apply Z.mul_le_mono_nonneg_r; [lia|].
      rewrite <- (nearest_even_Z (2 ^ 52)) at 1.
      apply nearest_even_mono, Qdiv_Z_ge; [exact Hu'|].
      rewrite <- Z.pow_add_r by lia.
      apply Qle_trans with (inject_Z (Qfloor n')); [|apply Qfloor_le].
      rewrite <- Zle_Qle.
      assert (0 < Qfloor n')%Z as Hpos.
      { destruct (Z.le_gt_cases (Qfloor n') 0) as [Hn | Hn]; [|exact Hn].
        unfold k' in Hlt. rewrite (Z.log2_nonpos _ Hn) in Hlt. lia. }
      replace (52 + k')%Z with (Z.log2 (Qfloor n')) by lia.
      by apply Z.log2_spec.
Qed.

Lemma round_scaled_nonneg (n : Q) :
  (0 <= n)%Q -> (0 <= Binary64.round_scaled n)%Z.
Proof.
  intros H. unfold Binary64.round_scaled.
  pose proof (quantum_pos n) as Hu.
  apply Z.mul_nonneg_nonneg; [|lia].
  rewrite <- (nearest_even_Z 0). apply nearest_even_mono.
  change (inject_Z 0) with 0%Q. apply Qle_shift_div_l; [by apply inject_Z_pos|].
  by rewrite Qmult_0_l.
Qed.

Lemma round_scaled_comp (n n' : Q) :
  (n == n')%Q -> Binary64.round_scaled n = Binary64.round_scaled n'.
Proof.
  intros H. unfold Binary64.round_scaled, Binary64.quantum.
  rewrite (Qfloor_comp _ _ H). f_equal.
  apply nearest_even_comp. by rewrite H.
Qed.

Lemma round_scaled_error (n : Q) :
  (n - inject_Z (Binary64.quantum n) * (1 # 2)
     <= inject_Z (Binary64.round_scaled n)
   /\ inject_Z (Binary64.round_scaled n)
     <= n + inject_Z (Binary64.quantum n) * (1 # 2))%Q.
Proof.
  unfold Binary64.round_scaled.
  pose proof (inject_Z_pos _ (quantum_pos n)) as Hu.
  destruct (nearest_even_error (n / inject_Z (Binary64.quantum n))) as [Hlo Hhi].
  rewrite inject_Z_mult.
  set (u := inject_Z (Binary64.quantum n)) in *.
  set (m := inject_Z (Binary64.nearest_even (n / u))) in *.
  clearbody m u.
  split.
  - assert ((n / u - (1 # 2)) * u == n - u * (1 # 2))%Q as <-
      by (field; intros ?; lra).
    apply Qmult_le_compat_r; lra.
  - assert ((n / u + (1 # 2)) * u == n + u * (1 # 2))%Q as <-
      by (field; intros ?; lra).
    apply Qmult_le_compat_r; lra.
Qed.

Lemma quantum_bound (n : Q) (b : Z) :
  (0 <= b)%Z -> (n < inject_Z (2 ^ (b + 53)))%Q ->
  (Binary64.quantum n <= 2 ^ b)%Z.
Proof.
  intros Hb Hn. unfold Binary64.quantum.
  apply Z.pow_le_mono_r; [lia|].
  destruct (Z.le_gt_cases (Qfloor n) 0) as [H0 | H0].
  { rewrite (Z.log2_nonpos _ H0). lia. }
  assert (Z.log2 (Qfloor n) < b + 53)%Z; [|lia].
  apply Z.log2_lt_pow2; [exact H0|].
  rewrite Zlt_Qlt. apply Qle_lt_trans with n; [apply Qfloor_le|exact Hn].
Qed.

Lemma round_magnitude_mono (x y : Q) :
  (0 <= x)%Q -> (x <= y)%Q ->
  (Binary64.round_magnitude x <= Binary64.round_magnitude y)%Q.
Proof.
  intros H0 Hle. unfold Binary64.round_magnitude.
  apply Qdiv_Z_mono; [done|]. rewrite <- Zle_Qle.
  apply round_scaled_mono.
  - apply Qmult_le_0_compat; [exact H0|discriminate].
  - apply Qmult_le_compat_r; [exact Hle|discriminate].
Qed.

Lemma round_magnitude_nonneg (x : Q) :
  (0 <= x)%Q -> (0 <= Binary64.round_magnitude x)%Q.
Proof.
  intros H0. unfold Binary64.round_magnitude.
  apply Qle_shift_div_l; [done|]. rewrite Qmult_0_l.
  change 0%Q with (inject_Z 0). rewrite <- Zle_Qle.
  apply round_scaled_nonneg.
  apply Qmult_le_0_compat; [exact H0|discriminate].
Qed.

Lemma round_magnitude_comp (x y : Q) :
  (x == y)%Q -> (Binary64.round_magnitude x == Binary64.round_magnitude y)%Q.
Proof.
  intros H. unfold Binary64.round_magnitude.
  rewrite (round_scaled_comp (x * inject_Z (2 ^ 1074))
             (y * inject_Z (2 ^ 1074))); [reflexivity|].
  by rewrite H.
Qed.

Lemma Qle_bool_false (x y : Q) : Qle_bool x y = false <-> (y < x)%Q.
Proof.
  split.
  - intros H. apply Qnot_le_lt. intros Hle. apply Qle_bool_iff in Hle.
    congruence.
  - intros H. destruct (Qle_bool x y) eqn:E; [|reflexivity].
    apply Qle_bool_iff in E. lra.
Qed.

Lemma round_comp (x y : Q) :
  (x == y)%Q -> (Binary64.round x == Binary64.round y)%Q.
Proof.
  intros H. unfold Binary64.round.
  destruct (Qle_bool 0 x) eqn:Ex, (Qle_bool 0 y) eqn:Ey.
  - by apply round_magnitude_comp.
  - apply Qle_bool_iff in Ex. apply Qle_bool_false in Ey. lra.
  - apply Qle_bool_iff in Ey. apply Qle_bool_false in Ex. lra.
  - apply Qopp_comp, round_magnitude_comp. by rewrite H.
Qed.

Lemma round_mono (x y : Q) :
  (x <= y)%Q -> (Binary64.round x <= Binary64.round y)%Q.
Proof.
  intros H. unfold Binary64.round.
  destruct (Qle_bool 0 x) eqn:Ex, (Qle_bool 0 y) eqn:Ey.
  - apply Qle_bool_iff in Ex. by apply round_magnitude_mono.
  - apply Qle_bool_iff in Ex. apply Qle_bool_false in Ey. lra.
  - apply Qle_bool_iff in Ey. apply Qle_bool_false in Ex.
    pose proof (round_magnitude_nonneg (- x)) as Hx.
    pose proof (round_magnitude_nonneg y Ey) as Hy.
    assert (0 <= - x)%Q as Hnx by lra. specialize (Hx Hnx). lra.
  - apply Qle_bool_false in Ex, Ey.
    pose proof (round_magnitude_mono (- y) (- x)) as Hm.
    assert (0 <= - y)%Q as H1 by lra. assert (- y <= - x)%Q as H2 by lra.
    specialize (Hm H1 H2). lra.
Qed.

Lemma round_error (x : Q) (b : Z) :
  (0 <= b)%Z -> (0 <= x)%Q -> (x * inject_Z (2 ^ 1074) < inject_Z (2 ^ (b + 53)))%Q ->
  (x - inject_Z (2 ^ b) / inject_Z (2 ^ 1075) <= Binary64.round x
   /\ Binary64.round x <= x + inject_Z (2 ^ b) / inject_Z (2 ^ 1075))%Q.
Proof.
  intros Hb H0 Hlt. unfold Binary64.round.
  apply Qle_bool_iff in H0. rewrite H0. unfold Binary64.round_magnitude.
  set (n := (x * inject_Z (2 ^ 1074))%Q) in *.
  destruct (round_scaled_error n) as [Hlo Hhi].
  pose proof (quantum_bound n b Hb Hlt) as Hq.
  pose proof (quantum_pos n) as Hq0.
  rewrite Zle_Qle in Hq. apply inject_Z_pos in Hq0.
  set (u := inject_Z (Binary64.quantum n)) in *.
  set (r := inject_Z (Binary64.round_scaled n)) in *.
  set (B := inject_Z (2 ^ b)) in *.
  assert (x == n / inject_Z (2 ^ 1074))%Q as Hx by (unfold n; field; done).
  assert (inject_Z (2 ^ 1075) == 2 * inject_Z (2 ^ 1074))%Q as ->
    by (vm_compute; reflexivity).
  set (S := inject_Z (2 ^ 1074)) in *.
  assert (0 < S)%Q as HS by done.
  clearbody S n u r B. clear H0 Hlt.
  split.
  - apply Qle_shift_div_l; [exact HS|].
    assert ((x - B / (2 * S)) * S == n - B * (1 # 2))%Q as ->
      by (rewrite Hx; field; intros ?; lra).
    lra.
  - apply Qle_shift_div_r; [exact HS|].
    assert ((x + B / (2 * S)) * S == n + B * (1 # 2))%Q as ->
      by (rewrite Hx; field; intros ?; lra).
    lra.
Qed.

(** What [Binary64.round] gives is left as it is by [Binary64.round]. *)
Lemma round_scaled_multiple (R M : Z) :
  R = (M * Binary64.quantum (inject_Z R))%Z ->
  Binary64.round_scaled (inject_Z R) = R.
Proof.
  intros HR. unfold Binary64.round_scaled.
  pose proof (quantum_pos (inject_Z R)) as Hu.
  set (u := Binary64.quantum (inject_Z R)) in *.
  rewrite (nearest_even_comp _ (inject_Z M)).
  - rewrite nearest_even_Z. by rewrite <- HR.
  - rewrite HR at 1. rewrite inject_Z_mult. field.
    intros H. apply inject_Z_pos in Hu. rewrite H in Hu. by apply Qlt_irrefl in Hu.
Qed.

Lemma round_scaled_shape (n : Q) :
  (0 <= n)%Q ->
  exists m k : Z,
    (0 <= k)%Z /\ (0 <= m <= 2 ^ 53)%Z
    /\ Binary64.round_scaled n = (m * 2 ^ k)%Z.
Proof.
  intros H0.
  assert (0 <= Qfloor n)%Z as Hf0.
  { change 0%Z with (Qfloor 0). by apply Qfloor_resp_le. }
  pose proof (round_scaled_nonneg n H0) as HR0.
  unfold Binary64.round_scaled, Binary64.quantum in *.
  set (k := Z.max 0 (Z.log2 (Qfloor n) - 52)) in *.
  assert (0 <= k)%Z as Hk by lia.
  assert (0 < 2 ^ k)%Z as Hu by (apply Z.pow_pos_nonneg; lia).
  set (m := Binary64.nearest_even (n / inject_Z (2 ^ k))) in *.
  exists m, k. split; [exact Hk|]. split; [|reflexivity]. split.
  - apply Z.mul_le_mono_pos_r with (2 ^ k)%Z; [exact Hu|]. lia.
  - unfold m. rewrite <- (nearest_even_Z (2 ^ 53)).
    apply nearest_even_mono, Qdiv_Z_le; [exact Hu|].
    rewrite <- Z.pow_add_r by lia.
    apply Qle_trans with (inject_Z (Qfloor n + 1));
      [apply Qlt_le_weak, Qlt_floor|].
    rewrite <- Zle_Qle.
    assert (Qfloor n < 2 ^ (53 + k))%Z; [|lia].
    destruct (Z.eq_dec (Qfloor n) 0) as [-> | Hne].
    { apply Z.pow_pos_nonneg; lia. }
    apply Z.lt_le_trans with (2 ^ Z.succ (Z.log2 (Qfloor n)))%Z.
    { apply Z.log2_spec. lia. }
    apply Z.pow_le_mono_r; lia.
Qed.

Lemma round_scaled_fixed (m k : Z) :
  (0 <= k)%Z -> (0 <= m <= 2 ^ 53)%Z ->
  Binary64.round_scaled (inject_Z (m * 2 ^ k)) = (m * 2 ^ k)%Z.
Proof.
  intros Hk [Hm0 Hm1].
  assert (0 < 2 ^ k)%Z as Hu by (apply Z.pow_pos_nonneg; lia).
  destruct (Z.eq_dec m 0) as [-> | Hne0].
  { apply (round_scaled_multiple _ 0). lia. }
  assert (Z.log2 (m * 2 ^ k) = k + Z.log2 m)%Z as Hlog
    by (apply Z.log2_mul_pow2; lia).
  destruct (Z.eq_dec m (2 ^ 53)) as [-> | Hne1].
  - apply (round_scaled_multiple _ (2 ^ 52)).
    unfold Binary64.quantum. rewrite Qfloor_Z, Hlog.
    rewrite Z.log2_pow2 by lia.
    replace (Z.max 0 (k + 53 - 52)) with (k + 1)%Z by lia.
    rewrite <- !Z.pow_add_r by lia. f_equal. lia.
  - assert (Z.log2 m < 53)%Z as Hlm by (apply Z.log2_lt_pow2; lia).
    apply (round_scaled_multiple _ (m * 2 ^ (k - Z.max 0 (k + Z.log2 m - 52)))).
    unfold Binary64.quantum. rewrite Qfloor_Z, Hlog.
    rewrite <- Z.mul_assoc, <- Z.pow_add_r by lia.
    do 2 f_equal. lia.
Qed.

Lemma round_scaled_idempotent (n : Q) :
  (0 <= n)%Q ->
  Binary64.round_scaled (inject_Z (Binary64.round_scaled n))
  = Binary64.round_scaled n.
Proof.
  intros H0. destruct (round_scaled_shape n H0) as (m & k & Hk & Hm & ->).
  by apply round_scaled_fixed.
Qed.

Lemma round_idempotent (x : Q) :
  (Binary64.round (Binary64.round x) == Binary64.round x)%Q.
Proof.
  assert (forall y, (0 <= y)%Q ->
            (Binary64.round_magnitude (Binary64.round_magnitude y)
             == Binary64.round_magnitude y)%Q) as Hmag.
  { intros y Hy. unfold Binary64.round_magnitude at 1 3.
    unfold Binary64.round_magnitude.
    rewrite (round_scaled_comp _
               (inject_Z (Binary64.round_scaled (y * inject_Z (2 ^ 1074))))).
    - rewrite round_scaled_idempotent; [reflexivity|].
      apply Qmult_le_0_compat; [exact Hy|discriminate].
    - field. discriminate. }
  unfold Binary64.round.
  destruct (Qle_bool 0 x) eqn:Ex.
  - apply Qle_bool_iff in Ex.
    pose proof (round_magnitude_nonneg x Ex) as Hr.
    apply Qle_bool_iff in Hr. rewrite Hr. by apply Hmag.
  - apply Qle_bool_false in Ex.
    assert (0 <= - x)%Q as Hx by lra.
    pose proof (round_magnitude_nonneg (- x)%Q Hx) as Hr.
    destruct (Qle_bool 0 (- Binary64.round_magnitude (- x))%Q) eqn:E.
    + apply Qle_bool_iff in E.
      assert (Binary64.round_magnitude (- x) == 0)%Q as Hz by lra.
      rewrite (round_magnitude_comp _ 0) by lra.
      rewrite Hz. vm_compute. reflexivity.
    + apply Qopp_comp. rewrite <- (Hmag (- x)%Q Hx) at 2.
      apply round_magnitude_comp. ring.
Qed.

(** No Number lies between [1 - 2^-53] and 1. *)
Lemma Number_below_one (x : Q) :
  JS.is_Number x -> (0 <= x)%Q -> (x < 1)%Q -> (x <= 1 - (1 # 2 ^ 53))%Q.
Proof.
  unfold JS.is_Number, JS.Number, Binary64.round. intros Hx H0 H1.
  pose proof H0 as Hb. apply Qle_bool_iff in Hb. rewrite Hb in Hx. clear Hb.
  unfold Binary64.round_magnitude in Hx.
  set (S := inject_Z (2 ^ 1074)) in *.
  assert (0 < S)%Q as HS by done.
  set (n := (x * S)%Q) in *.
  assert (inject_Z (Binary64.round_scaled n) == n)%Q as Hn.
  { assert (inject_Z (Binary64.round_scaled n)
            == inject_Z (Binary64.round_scaled n) / S * S)%Q as ->
      by (field; intros ?; lra).
    by rewrite Hx. }
  assert (n < S)%Q as HnS.
  { unfold n. apply Qlt_le_trans with (1 * S)%Q.
    - apply Qmult_lt_compat_r; done.
    - rewrite Qmult_1_l. apply Qle_refl. }
  assert (0 <= n)%Q as Hn0 by (apply Qmult_le_0_compat; [done|lra]).
  assert (n <= inject_Z (2 ^ 1074 - 2 ^ 1021))%Q as Hgoal.
  { unfold Binary64.round_scaled, Binary64.quantum in Hn.
    assert (0 <= Qfloor n)%Z as Hf0.
    { change 0%Z with (Qfloor 0). by apply Qfloor_resp_le. }
    assert (Qfloor n < 2 ^ 1074)%Z as Hf1.
    { rewrite Zlt_Qlt. apply Qle_lt_trans with n; [apply Qfloor_le|exact HnS]. }
    set (k := Z.max 0 (Z.log2 (Qfloor n) - 52)) in *.
    set (m := Binary64.nearest_even (n / inject_Z (2 ^ k))) in *.
    destruct (Z.le_gt_cases 1021 k) as [Hk | Hk].
    - assert (Z.log2 (Qfloor n) < 1074)%Z as Hlog.
      { apply Z.log2_lt_pow2; [|exact Hf1]. unfold k in Hk.
        destruct (Z.le_gt_cases (Qfloor n) 0) as [Hz | Hz]; [|exact Hz].
        rewrite (Z.log2_nonpos _ Hz) in Hk. lia. }
      assert (k = 1021)%Z as Ek by lia.
      rewrite <- Hn. rewrite <- Zle_Qle. rewrite Ek in *.
      assert (m * 2 ^ 1021 < 2 ^ 1074)%Z as Hlt.
      { rewrite Zlt_Qlt. by rewrite Hn. }
      change (2 ^ 1074)%Z with (2 ^ 53 * 2 ^ 1021)%Z in Hlt |- *.
      apply Z.mul_lt_mono_pos_r in Hlt; [|done].
      rewrite <- Z.mul_sub_distr_r with (p := (2 ^ 1021)%Z) (m := 1%Z).
      apply Z.mul_le_mono_nonneg_r; [done|]. lia.
    - apply Qle_trans with (inject_Z (2 ^ 1073)); [|by rewrite <- Zle_Qle].
      apply Qle_trans with (inject_Z (Qfloor n + 1));
        [apply Qlt_le_weak, Qlt_floor|].
      rewrite <- Zle_Qle.
      assert (Qfloor n < 2 ^ 1073)%Z; [|lia].
      destruct (Z.eq_dec (Qfloor n) 0) as [-> | Hne]; [done|].
      apply Z.log2_lt_pow2; lia. }
  apply Qmult_le_r with S; [exact HS|]. fold n.
  apply Qle_trans with (inject_Z (2 ^ 1074 - 2 ^ 1021)); [exact Hgoal|].
  apply Qle_lteq. right. unfold S. vm_compute. reflexivity.
Qed.

(** ** Numbers and strings *)

Lemma gt_true (a b : Q) : JS.gt a b = true <-> (b < a)%Q.
Proof.
  unfold JS.gt. rewrite negb_true_iff. split.
  - intros H. apply Qnot_le_lt. intros Hle.
    apply Qle_bool_iff in Hle. congruence.
  - intros H. destruct (Qle_bool a b) eqn:E; [|reflexivity].
    apply Qle_bool_iff in E. lra.
Qed.

Lemma gt_false (a b : Q) : JS.gt a b = false <-> (a <= b)%Q.
Proof.
  unfold JS.gt. rewrite negb_false_iff. apply Qle_bool_iff.
Qed.

Lemma number_or_zero (v : Q) : (JS.number_or (Some v) 0 == v)%Q.
Proof.
  unfold JS.number_or. destruct (Qeq_bool v 0) eqn:E; [|reflexivity].
  apply Qeq_bool_iff in E. symmetry. exact E.
Qed.

Lemma Math_round_nearest (x : Q) :
  (inject_Z (JS.Math_round x) - (1 # 2) <= x
   /\ x < inject_Z (JS.Math_round x) + (1 # 2))%Q.
Proof.
  unfold JS.Math_round.
  pose proof (Qfloor_le (x + (1 # 2))) as Hlo.
  pose proof (Qlt_floor (x + (1 # 2))) as Hhi.
  rewrite inject_Z_plus in Hhi. change (inject_Z 1) with 1%Q in Hhi.
  generalize dependent (inject_Z (Qfloor (x + (1 # 2)))). intros z Hlo Hhi.
  split; lra.
Qed.

Lemma Number_mono (x y : Q) : (x <= y)%Q -> (JS.Number x <= JS.Number y)%Q.
Proof. apply round_mono. Qed.

Lemma Number_comp (x y : Q) : (x == y)%Q -> (JS.Number x == JS.Number y)%Q.
Proof. apply round_comp. Qed.

Lemma mul_comp (x x' y : Q) : (x == x')%Q -> (JS.mul x y == JS.mul x' y)%Q.
Proof.
  intros H. unfold JS.mul. apply Number_comp.
  by rewrite (Number_comp x x' H).
Qed.

(** [JS.Number] gives a Number. *)
Lemma Number_is_Number (x : Q) : JS.is_Number (JS.Number x).
Proof. apply round_idempotent. Qed.

(** On Numbers, [JS.mul] is the product rounded once. *)
Lemma mul_Numbers (x y : Q) :
  JS.is_Number x -> JS.is_Number y -> (JS.mul x y == JS.Number (x * y))%Q.
Proof.
  unfold JS.is_Number, JS.mul. intros Hx Hy. apply Number_comp.
  by rewrite Hx, Hy.
Qed.

(** [0.1 * 3] is [0.30000000000000004]. *)
Example mul_tenth_by_three :
  (JS.Number (1 # 10) == 3602879701896397 # 36028797018963968)%Q
  /\ (JS.mul (1 # 10) 3 == 1351079888211149 # 4503599627370496)%Q
  /\ (3 # 10 < JS.mul (1 # 10) 3)%Q.
Proof. split_and!; vm_compute; reflexivity. Qed.

Lemma Number_0 : (JS.Number 0 == 0)%Q.
Proof. vm_compute. reflexivity. Qed.

Lemma Number_1 : (JS.Number 1 == 1)%Q.
Proof. vm_compute. reflexivity. Qed.

Lemma Number_3 : (JS.Number 3 == 3)%Q.
Proof. vm_compute. reflexivity. Qed.

Lemma Number_100 : (JS.Number 100 == 100)%Q.
Proof. vm_compute. reflexivity. Qed.

(** The half-way points between the integers from 0 to 100 are
    Numbers. *)
Lemma Number_half_integer (c : Z) :
  (0 <= c <= 100)%Z ->
  (JS.Number (inject_Z c + (1 # 2)) == inject_Z c + (1 # 2))%Q.
Proof.
  intros Hc.
  assert (forallb (fun c => Qeq_bool (JS.Number (inject_Z c + (1 # 2)))
                              (inject_Z c + (1 # 2)))
            (seqZ 0 101) = true) as Hall by (vm_compute; reflexivity).
  rewrite forallb_forall in Hall. apply Qeq_bool_iff, Hall.
  apply list_elem_of_In, elem_of_seqZ. lia.
Qed.

(** The product [prob * 100] of the source for a probability between 0
    and 1, and the exact product of the two Numbers. *)
Lemma mul_percent (p : Q) :
  (0 <= p)%Q -> (p <= 1)%Q ->
  (0 <= JS.Number p)%Q /\ (JS.Number p <= 1)%Q
  /\ (JS.mul p 100 == JS.Number (JS.Number p * 100))%Q
  /\ (0 <= JS.mul p 100)%Q /\ (JS.mul p 100 <= 100)%Q.
Proof.
  intros H0 H1.
  pose proof (Number_mono _ _ H0) as Hlo. rewrite Number_0 in Hlo.
  pose proof (Number_mono _ _ H1) as Hhi. rewrite Number_1 in Hhi.
  assert (JS.mul p 100 == JS.Number (JS.Number p * 100))%Q as Heq.
  { unfold JS.mul. apply Number_comp. by rewrite Number_100. }
  split; [exact Hlo|]. split; [exact Hhi|]. split; [exact Heq|].
  rewrite Heq. split.
  - rewrite <- Number_0. apply Number_mono. lra.
  - rewrite <- Number_100 at 2. apply Number_mono. lra.
Qed.

Lemma Math_round_percent (p : Q) :
  (0 <= p)%Q -> (p <= 1)%Q ->
  (0 <= JS.Math_round (JS.mul p 100) <= 100)%Z.
Proof.
  intros H0 H1. destruct (mul_percent p H0 H1) as (_ & _ & _ & Hlo & Hhi).
  unfold JS.Math_round. split.
  - apply Z.le_trans with (Qfloor (0 + (1 # 2))); [discriminate|].
    apply Qfloor_resp_le. lra.
  - apply Z.le_trans with (Qfloor (100 + (1 # 2))); [|discriminate].
    apply Qfloor_resp_le. lra.
Qed.

(** [Math.round(prob * 100)] for a probability between 0 and 1 is the
    integer nearest to the exact product, except that a product less
    than [2^-47] below a half-way point [c - 1/2] can give [c]: the
    rounding of the product lifts it to the half-way point, and
    [Math.round] lifts that to [c]. *)
Lemma Math_round_percent_nearest (p : Q) :
  (0 <= p)%Q -> (p <= 1)%Q ->
  (inject_Z (JS.Math_round (JS.mul p 100)) - (1 # 2) - (1 # 2 ^ 47)
     <= JS.Number p * 100
   /\ JS.Number p * 100 < inject_Z (JS.Math_round (JS.mul p 100)) + (1 # 2))%Q.
Proof.
  intros H0 H1.
  pose proof (Math_round_percent p H0 H1) as Hc.
  destruct (mul_percent p H0 H1) as (Hlo & Hhi & Heq & _ & _).
  pose proof (Math_round_nearest (JS.mul p 100)) as [Hr1 Hr2].
  set (c := JS.Math_round (JS.mul p 100)) in *.
  set (z := (JS.Number p * 100)%Q) in *.
  assert (0 <= z)%Q as Hz0 by (unfold z; lra).
  assert (z <= 100)%Q as Hz1 by (unfold z; lra).
  split.
  - destruct (round_error z 1028) as [_ Herr]; [lia|exact Hz0| |].
    + apply Qle_lt_trans with (100 * inject_Z (2 ^ 1074))%Q.
      * apply Qmult_le_compat_r; [exact Hz1|discriminate].
      * vm_compute. reflexivity.
    + assert (inject_Z (2 ^ 1028) / inject_Z (2 ^ 1075) == 1 # 2 ^ 47)%Q as E
        by (vm_compute; reflexivity).
      rewrite E in Herr. fold (JS.Number z) in Herr. rewrite <- Heq in Herr.
      clearbody z c. lra.
  - apply Qnot_le_lt. intros Hge.
    apply Number_mono in Hge. rewrite (Number_half_integer c Hc) in Hge.
    rewrite <- Heq in Hge. clearbody z c. lra.
Qed.

(** ** The fold of [processXimilarResult] *)

Lemma pick_inv (pre : list Prediction) (acc : option Prediction)
  (x : Prediction) :
  fold_inv pre acc → fold_inv (pre ++ [x]) (pick acc x).
Proof.
  intros Hinv. unfold pick.
  destruct acc as [p|]; simpl in *.
  - destruct Hinv as [Hpos (i & Hi & Hmax & Hbefore)].
    pose proof (number_or_zero (prob p)) as Hor.
    destruct (JS.gt _ _) eqn:E.
    + apply gt_true in E. rewrite Hor in E. split; [lra|].
      exists (List.length pre). split; [|split].
      * rewrite lookup_app_r by lia. by rewrite Nat.sub_diag.
      * intros q [Hq | Hq%list_elem_of_singleton]%elem_of_app.
        -- specialize (Hmax q Hq). lra.
        -- subst. lra.
      * intros j q Hj Hq. rewrite lookup_app_l in Hq by lia.
        apply list_elem_of_lookup_2 in Hq. specialize (Hmax q Hq). lra.
    + apply gt_false in E. rewrite Hor in E. split; [exact Hpos|].
      exists i. split; [|split].
      * apply lookup_app_l_Some. exact Hi.
      * intros q [Hq | Hq%list_elem_of_singleton]%elem_of_app.
        -- by apply Hmax.
        -- by subst.
      * intros j q Hj Hq. apply (Hbefore j q Hj).
        apply lookup_lt_Some in Hi.
        rewrite lookup_app_l in Hq by lia. exact Hq.
  - destruct (JS.gt _ _) eqn:E.
    + apply gt_true in E. split; [exact E|].
      exists (List.length pre). split; [|split].
      * rewrite lookup_app_r by lia. by rewrite Nat.sub_diag.
      * intros q [Hq | Hq%list_elem_of_singleton]%elem_of_app.
        -- specialize (Hinv q Hq). lra.
        -- subst. lra.
      * intros j q Hj Hq. rewrite lookup_app_l in Hq by lia.
        apply list_elem_of_lookup_2 in Hq. specialize (Hinv q Hq). lra.
    + apply gt_false in E.
      intros q [Hq | Hq%list_elem_of_singleton]%elem_of_app.
      * by apply Hinv.
      * by subst.
Qed.

Lemma fold_pick_inv (l : list Prediction) :
  ∀ pre acc, fold_inv pre acc → fold_inv (pre ++ l) (fold_left pick l acc).
Proof.
  induction l as [|x l IH]; intros pre acc Hinv; simpl.
  - by rewrite app_nil_r.
  - replace (pre ++ x :: l) with ((pre ++ [x]) ++ l)
      by (by rewrite <- app_assoc).
    apply IH. by apply pick_inv.
Qed.

Lemma fold_pick_spec (l : list Prediction) :
  fold_inv l (fold_left pick l None).
Proof.
  apply (fold_pick_inv l [] None). simpl. intros q Hq.
  by apply not_elem_of_nil in Hq.
Qed.

(** The fold over the elements of an array: it throws on the first
    null element, and otherwise folds [pick] over the predictions among
    the elements. *)
Lemma has_null_elem_of (l : list Element) :
  has_null l = true ↔ ElementNull ∈ l.
Proof.
  induction l as [|e l IH]; [split; [done|by intros ?%not_elem_of_nil]|].
  rewrite elem_of_cons. destruct e; cbn [has_null].
  - split; [by left|done].
  - rewrite IH. split; [by right|by intros [?|?]].
  - rewrite IH. split; [by right|by intros [?|?]].
Qed.

Lemma reduce_objects (l : list Element) :
  ∀ acc,
    JS.reduce callback l acc =
    if has_null l then JS.Throw JS.TypeError
    else JS.Return (fold_left pick (objects l) acc).
Proof.
  induction l as [|e l IH]; intros acc; [done|].
  cbn [JS.reduce]. destruct e as [| |p]; cbn [callback JS.bind has_null].
  - done.
  - by rewrite IH.
  - by rewrite IH.
Qed.

Lemma objects_predictions (l : list Prediction) :
  objects (ElementObject <$> l) = l ∧ has_null (ElementObject <$> l) = false.
Proof.
  induction l as [|p l [IH1 IH2]]; [done|].
  split.
  - unfold objects in *. cbn. by rewrite IH1.
  - done.
Qed.

Lemma topPrediction_OutputsArray (l : list Prediction) :
  topPrediction (OutputsArray l) = JS.Return (fold_left pick l None).
Proof.
  unfold topPrediction, OutputsArray. rewrite reduce_objects.
  by destruct (objects_predictions l) as [-> ->].
Qed.

Lemma processXimilarResult_payloadOf (l : list Prediction)
  (rest : list XRecord) :
  processXimilarResult (payloadOf l rest) =
  match fold_left pick l None with
  | Some p => mapPrediction p
  | None => JS.Return unknownItem
  end.
Proof.
  pose proof (topPrediction_OutputsArray l) as Htop.
  unfold processXimilarResult, payloadOf, predictions, OutputsArray in *.
  cbn [outputs]. cbv [mbind Exn_bind JS.bind]. by rewrite Htop.
Qed.

(** ** C1, C10, C4: which prediction is selected *)

(** C1, as the specification states it, fails on a list whose
    predictions all have probability 0: the payload
    [{records: [{outputs: [{label: "battery", prob: 0}]}]}] is well
    formed and its outputs list is not empty, yet no prediction is
    selected and the fixed "Unknown item" result is returned. *)
Lemma C1_zero_probability_not_selected :
  let l := [ {| label := Some "battery"; prob := 0 |} ] in
  l ≠ []
  ∧ probabilities_in_range (payloadOf l [])
  ∧ topPrediction (OutputsArray l) = JS.Return None
  ∧ processXimilarResult (payloadOf l []) = JS.Return unknownItem.
Proof.
  simpl. split; [discriminate|]. split; [|split; reflexivity].
  constructor; [|constructor]. simpl. split; lra.
Qed.

(** C1 (amended): for every payload whose outputs list contains a
    prediction of probability greater than 0, [processXimilarResult]
    selects one prediction of the list, the first one of maximum
    probability (so that of two predictions of equal probability the
    first-listed one wins), and returns what the mapping makes of it. *)
Theorem C1_selects_first_maximum (l : list Prediction) (rest : list XRecord) :
  (∃ q, q ∈ l ∧ (0 < prob q)%Q) →
  ∃ p, topPrediction (OutputsArray l) = JS.Return (Some p)
       ∧ first_maximum l p
       ∧ processXimilarResult (payloadOf l rest) = mapPrediction p.
Proof.
  intros (q & Hq & Hpos).
  rewrite processXimilarResult_payloadOf, topPrediction_OutputsArray.
  pose proof (fold_pick_spec l) as Hinv.
  destruct (fold_left pick l None) as [p|]; simpl in Hinv.
  - exists p. destruct Hinv as [_ Hmax]. done.
  - specialize (Hinv q Hq). lra.
Qed.

Lemma C1_selects_first_maximum_witness :
  ∃ p, topPrediction (OutputsArray sampleTie) = JS.Return (Some p)
       ∧ first_maximum sampleTie p
       ∧ processXimilarResult (payloadOf sampleTie []) = mapPrediction p.
Proof.
  apply C1_selects_first_maximum.
  exists {| label := Some "battery"; prob := 6 # 10 |}.
  split; [left | reflexivity].
Defined.

(** The tie of the specification's scenario: the first-listed
    prediction is the one chosen. *)
Example tie_first_listed :
  topPrediction (OutputsArray sampleTie)
  = JS.Return (Some {| label := Some "battery"; prob := 6 # 10 |}).
Proof. reflexivity. Qed.

(** C10: for every non-empty outputs list in which every prediction has
    probability 0, the fold leaves its accumulator at null and
    [processXimilarResult] returns the fixed "Unknown item" result
    (non-biodegradable, confidence 50) instead of a listed prediction. *)
Theorem C10_all_zero_falls_back (l : list Prediction) (rest : list XRecord) :
  l ≠ [] →
  Forall (λ q, (prob q == 0)%Q) l →
  topPrediction (OutputsArray l) = JS.Return None
  ∧ processXimilarResult (payloadOf l rest) =
    JS.Return
      {| type := Some non_biodegradable;
         confidence := 50;
         item := "Unknown item";
         tips := Some "Unable to classify this item. Please dispose of it responsibly." |}.
Proof.
  intros _ Hzero.
  rewrite processXimilarResult_payloadOf, topPrediction_OutputsArray.
  pose proof (fold_pick_spec l) as Hinv.
  destruct (fold_left pick l None) as [p|]; simpl in Hinv; [|done].
  destruct Hinv as [Hpos (i & Hi & _)].
  apply list_elem_of_lookup_2 in Hi.
  rewrite Forall_forall in Hzero. specialize (Hzero p Hi). simpl in Hzero.
  lra.
Qed.

Lemma C10_all_zero_falls_back_witness :
  topPrediction (OutputsArray sampleZeros) = JS.Return None
  ∧ processXimilarResult (payloadOf sampleZeros [])
    = JS.Return
        {| type := Some non_biodegradable;
           confidence := 50;
           item := "Unknown item";
           tips := Some "Unable to classify this item. Please dispose of it responsibly." |}.
Proof.
  apply C10_all_zero_falls_back.
  - discriminate.
  - repeat constructor.
Defined.

(** C4: for every payload whose first record's outputs list is absent
    or empty (no [records], no first record, no [outputs], or an empty
    [outputs]), [processXimilarResult] returns the fixed result:
    non-biodegradable, confidence 50, "Unknown item", the generic tip. *)
Theorem C4_absent_or_empty_outputs (records : option (list XRecord)) :
  outputs_absent_or_empty records →
  processXimilarResult (Payload records) =
  JS.Return
    {| type := Some non_biodegradable;
       confidence := 50;
       item := "Unknown item";
       tips := Some "Unable to classify this item. Please dispose of it responsibly." |}.
Proof.
  destruct records as [[|r recs]|]; simpl; try done.
  unfold processXimilarResult. simpl.
  intros [-> | ->]; reflexivity.
Qed.

Lemma C4_absent_or_empty_outputs_witness :
  processXimilarResult (Payload (Some [ {| outputs := OutputsArray [] |} ])) =
  JS.Return
    {| type := Some non_biodegradable;
       confidence := 50;
       item := "Unknown item";
       tips := Some "Unable to classify this item. Please dispose of it responsibly." |}.
Proof.
  apply C4_absent_or_empty_outputs. simpl. right. reflexivity.
Defined.

(** ** C5: confidence and item label *)

Lemma split_spaces_cons (s : string) : ∃ w ws, split_spaces s = w :: ws.
Proof.
  destruct s as [|c rest]; simpl; [by eauto|].
  destruct (Ascii.eqb c " "); [by eauto|].
  destruct (split_spaces rest); by eauto.
Qed.

Lemma join_spaces_char (c : ascii) (w : string) (ws : list string) :
  join_spaces (String c w :: ws) = String c (join_spaces (w :: ws)).
Proof. destruct ws; reflexivity. Qed.

Lemma join_spaces_empty (w : string) (ws : list string) :
  join_spaces (EmptyString :: w :: ws) = String " " (join_spaces (w :: ws)).
Proof. reflexivity. Qed.

Lemma label_char_cases (c : ascii) :
  label_char c = true →
  (c = " "%char ∧ JS.is_word_char c = false)
  ∨ (Ascii.eqb c " " = false ∧ JS.is_word_char c = true).
Proof.
  unfold label_char. intros H.
  destruct (Ascii.eqb c " ") eqn:E.
  - apply Ascii.eqb_eq in E. subst. by left.
  - right. rewrite orb_false_r in H. done.
Qed.

Lemma replace_underscores_label (l : string) :
  all_chars label_char l = true →
  all_chars label_char (JS.replace_underscores l) = true.
Proof.
  unfold JS.replace_underscores.
  induction l as [|c rest IH]; cbn [all_chars JS.map_chars]; [done|].
  intros [Hc Hrest]%andb_true_iff. rewrite (IH Hrest), andb_true_r.
  destruct (Ascii.eqb c "_"); done.
Qed.

Lemma capitalize_from_split (t : string) :
  all_chars label_char t = true →
  JS.capitalize_from false t
  = join_spaces (capitalize_first <$> split_spaces t)
  ∧ JS.capitalize_from true t
    = join_spaces
        match split_spaces t with
        | w :: ws => w :: (capitalize_first <$> ws)
        | [] => []
        end.
Proof.
  induction t as [|c rest IH]; [done|].
  cbn [all_chars]. intros [Hc Hrest]%andb_true_iff.
  destruct (IH Hrest) as [IHf IHt]. clear IH.
  cbn [JS.capitalize_from split_spaces].
  destruct (label_char_cases c Hc) as [[-> Hw] | [Hsp Hw]].
  - rewrite !Hw. cbn [andb Ascii.eqb Bool.eqb].
    destruct (split_spaces_cons rest) as (w & ws & Hsplit).
    rewrite Hsplit in *. rewrite IHf.
    split; reflexivity.
  - rewrite !Hw, Hsp. cbn [andb negb].
    destruct (split_spaces_cons rest) as (w & ws & Hsplit).
    rewrite Hsplit in *. rewrite IHt.
    split.
    + cbn [fmap list_fmap capitalize_first].
      by rewrite join_spaces_char.
    + by rewrite join_spaces_char.
Qed.

Lemma capitalize_words_spec (l : string) :
  all_chars label_char l = true →
  JS.capitalize_words (JS.replace_underscores l) = itemLabel_spec l.
Proof.
  intros H. apply replace_underscores_label in H.
  unfold JS.capitalize_words, itemLabel_spec.
  by destruct (capitalize_from_split _ H) as [-> _].
Qed.

Lemma general_waste_entry :
  wasteMapping !! "general_waste" =
  Some {| entry_type := non_biodegradable;
          entry_tips := "This item should go in your general waste bin." |}.
Proof. vm_compute. reflexivity. Qed.

(** The result that [mapPrediction] builds from a prediction whose
    label is a string; it never throws. *)
Lemma mapPrediction_string (top : Prediction) (l : string) :
  label top = Some l →
  ∃ ty tp,
    mapPrediction top =
    JS.Return {| type := ty;
                 confidence := JS.Math_round (JS.mul (prob top) 100);
                 item := JS.capitalize_words (JS.replace_underscores l);
                 tips := tp |}.
Proof.
  intros Hl. unfold mapPrediction. rewrite Hl.
  unfold JS.get at 2. rewrite general_waste_entry.
  destruct (JS.get wasteMapping (JS.toLowerCase l)); simpl; eauto.
Qed.

(** C5, as the specification states it, fails on the probability that
    the literal [0.015] denotes, a Number a little below 15/1000: the
    product of that probability and 100 is less than 1.5, so the
    integer nearest to it is 1; the product that the code takes is
    rounded to the Number 1.5, and [Math.round] makes 2 of it. *)
Lemma C5_product_rounded_before_round :
  JS.is_Number sampleHalfway
  ∧ (JS.Number (15 # 1000) == sampleHalfway)%Q
  ∧ (0 <= sampleHalfway)%Q ∧ (sampleHalfway <= 1)%Q
  ∧ (sampleHalfway * 100 < 3 # 2)%Q
  ∧ JS.Math_round (sampleHalfway * 100) = 1%Z
  ∧ processXimilarResult
      (payloadOf [ {| label := Some "paper"; prob := sampleHalfway |} ] [])
    = JS.Return
        {| type := Some recyclable;
           confidence := 2;
           item := "Paper";
           tips := Some "Remove any plastic coating and place in paper recycling bin." |}.
Proof. split_and!; vm_compute; first [reflexivity | discriminate]. Qed.

(** C5 (amended): the payload with the single prediction
    [{label: "plastic_bottle", prob: 0.85}] gives recyclable, 85,
    "Plastic Bottle" and the bottle tip.  In general, when the fold
    selects a prediction whose label is a string, the result is
    returned (nothing throws) and its confidence is
    [Math.round(prob * 100)], where the product is the binary64 one.
    For a probability between 0 and 1 that is an integer between 0 and
    100, and the exact product of the probability and 100 is less than
    confidence + 1/2 and not less than confidence - 1/2 - 2^-47: the
    confidence is the integer nearest to the exact product unless that
    product is less than 2^-47 below a half-way point.  The item label
    is the raw label with underscores replaced by spaces and each word
    capitalized; for a label made of letters, digits, underscores and
    spaces that is the label cut at the spaces with the first letter of
    each word in upper case. *)
Theorem C5_confidence_and_item_label :
  processXimilarResult
    (payloadOf [ {| label := Some "plastic_bottle"; prob := 85 # 100 |} ] [])
  = JS.Return
      {| type := Some recyclable;
         confidence := 85;
         item := "Plastic Bottle";
         tips := Some "Clean and place in recycling bin. Check local recycling guidelines for proper disposal." |}
  ∧ ∀ (l : list Prediction) (rest : list XRecord) (top : Prediction)
      (raw : string),
      topPrediction (OutputsArray l) = JS.Return (Some top) →
      label top = Some raw →
      ∃ r, processXimilarResult (payloadOf l rest) = JS.Return r
           ∧ confidence r = JS.Math_round (JS.mul (prob top) 100)
           ∧ ((0 <= prob top)%Q → (prob top <= 1)%Q →
              (0 ≤ confidence r ≤ 100)%Z
              ∧ (inject_Z (confidence r) - (1 # 2) - (1 # 2 ^ 47)
                 <= JS.Number (prob top) * 100)%Q
              ∧ (JS.Number (prob top) * 100
                 < inject_Z (confidence r) + (1 # 2))%Q)
           ∧ item r = JS.capitalize_words (JS.replace_underscores raw)
           ∧ (all_chars label_char raw = true → item r = itemLabel_spec raw).
Proof.
  split; [vm_compute; reflexivity|].
  intros l rest top raw Htop Hraw.
  rewrite processXimilarResult_payloadOf.
  rewrite topPrediction_OutputsArray in Htop. injection Htop as ->.
  destruct (mapPrediction_string top raw Hraw) as (ty & tp & ->).
  eexists. split; [reflexivity|]. cbn [confidence item].
  split; [reflexivity|]. split; [|split; [reflexivity|]].
  - intros H0 H1.
    destruct (Math_round_percent_nearest (prob top) H0 H1) as [Hlo Hhi].
    split; [by apply Math_round_percent|]. by split.
  - apply capitalize_words_spec.
Qed.

Lemma C5_confidence_and_item_label_witness :
  ∃ r, processXimilarResult (payloadOf sampleTwo []) = JS.Return r
       ∧ confidence r = JS.Math_round (JS.mul (3 # 8) 100)
       ∧ ((0 <= 3 # 8)%Q → (3 # 8 <= 1)%Q →
          (0 ≤ confidence r ≤ 100)%Z
          ∧ (inject_Z (confidence r) - (1 # 2) - (1 # 2 ^ 47)
             <= JS.Number (3 # 8) * 100)%Q
          ∧ (JS.Number (3 # 8) * 100 < inject_Z (confidence r) + (1 # 2))%Q)
       ∧ item r = JS.capitalize_words (JS.replace_underscores "glass_bottle")
       ∧ (all_chars label_char "glass_bottle" = true →
          item r = itemLabel_spec "glass_bottle").
Proof.
  destruct C5_confidence_and_item_label as [_ H].
  apply (H sampleTwo [] {| label := Some "glass_bottle"; prob := 3 # 8 |}
           "glass_bottle");
    reflexivity.
Defined.

(** Half-way values round up: a probability of 0.375, whose product
    with 100 is exact, gives 38. *)
Example round_half_up :
  JS.Math_round (JS.mul (3 # 8) 100) = 38%Z
  ∧ processXimilarResult
      (payloadOf [ {| label := Some "glass_bottle"; prob := 3 # 8 |} ] [])
    = JS.Return
        {| type := Some recyclable;
           confidence := 38;
           item := "Glass Bottle";
           tips := Some "Clean thoroughly and place in glass recycling container." |}.
Proof. split; vm_compute; reflexivity. Qed.

(** The literal [0.285] denotes a Number below 285/1000, and the
    confidence is 28, not 29. *)
Example literal_below_half_way :
  (JS.Number (285 # 1000) < 285 # 1000)%Q
  ∧ JS.Math_round (JS.mul (285 # 1000) 100) = 28%Z.
Proof. split; vm_compute; reflexivity. Qed.

(** ** C6: labels that the table does not map *)

Lemma char_toLowerCase_not_upper (c : ascii) :
  JS.is_upper (JS.char_toLowerCase c) = false.
Proof.
  destruct c as [[] [] [] [] [] [] [] []]; reflexivity.
Qed.

Lemma toLowerCase_no_upper (l : string) :
  all_chars (λ c, negb (JS.is_upper c)) (JS.toLowerCase l) = true.
Proof.
  unfold JS.toLowerCase.
  induction l as [|c rest IH]; cbn [JS.map_chars all_chars]; [done|].
  by rewrite char_toLowerCase_not_upper, IH.
Qed.

(** Of the names inherited from [Object.prototype], a lower-cased label
    can only be one of the two that have no capital letter. *)
Lemma lower_prototype_key (l : string) :
  JS.toLowerCase l ∈ JS.Object_prototype_keys →
  JS.toLowerCase l = "constructor" ∨ JS.toLowerCase l = "__proto__".
Proof.
  intros Hin. pose proof (toLowerCase_no_upper l) as Hlow.
  unfold JS.Object_prototype_keys in Hin.
  repeat (apply elem_of_cons in Hin as [Heq | Hin];
          [first [ by left | by right
                 | rewrite Heq in Hlow; vm_compute in Hlow; discriminate ] |]).
  by apply not_elem_of_nil in Hin.
Qed.

(** A label that is not in the table and is not one of these two names
    gets the category and the tip of the "general_waste" entry. *)
Lemma unmapped_label_general_waste (top : Prediction) (raw : string) :
  label top = Some raw →
  wasteMapping !! JS.toLowerCase raw = None →
  JS.toLowerCase raw ∉ JS.Object_prototype_keys →
  mapPrediction top =
  JS.Return
    {| type := Some non_biodegradable;
       confidence := JS.Math_round (JS.mul (prob top) 100);
       item := JS.capitalize_words (JS.replace_underscores raw);
       tips := Some "This item should go in your general waste bin." |}.
Proof.
  intros Hl Hnone Hproto. unfold mapPrediction. rewrite Hl.
  unfold JS.get. rewrite Hnone, general_waste_entry.
  rewrite bool_decide_eq_false_2 by done. reflexivity.
Qed.

(** A label that is in the table gets the category and the tip of its
    entry. *)
Lemma mapped_label_entry (top : Prediction) (raw : string)
  (e : MappingEntry) :
  label top = Some raw →
  wasteMapping !! JS.toLowerCase raw = Some e →
  mapPrediction top =
  JS.Return
    {| type := Some (entry_type e);
       confidence := JS.Math_round (JS.mul (prob top) 100);
       item := JS.capitalize_words (JS.replace_underscores raw);
       tips := Some (entry_tips e) |}.
Proof.
  intros Hl Hsome. unfold mapPrediction. rewrite Hl.
  unfold JS.get. rewrite Hsome, general_waste_entry. reflexivity.
Qed.

(** C6 (the code departs from the claim): the label "Constructor" is in
    lower case "constructor", which is not a key of the table; the
    lookup [wasteMapping[category]] finds the member [constructor] that
    the table inherits from [Object.prototype], which is truthy, so the
    "general_waste" entry is not used and the result has neither a
    category nor a tip.  Nothing throws. *)
Theorem C6_inherited_key_bypasses_general_waste :
  wasteMapping !! JS.toLowerCase "Constructor" = None
  ∧ processXimilarResult
      (payloadOf [ {| label := Some "Constructor"; prob := 9 # 10 |} ] [])
    = JS.Return
        {| type := None;
           confidence := 90;
           item := "Constructor";
           tips := None |}.
Proof. split; vm_compute; reflexivity. Qed.

(** ** C2: the fallback of [analyzeWaste] *)

Lemma mockResults_valid : Forall validResult mockResults.
Proof.
  repeat constructor; simpl; by eauto || lia.
Qed.

(** Evaluates the closed integers injected into the rationals, for
    [lra]. *)
Ltac eval_inject_Z :=
  repeat match goal with
  | |- context [inject_Z ?z] =>
      let v := eval vm_compute in (inject_Z z) in
      progress change (inject_Z z) with v
  | H : context [inject_Z ?z] |- _ =>
      let v := eval vm_compute in (inject_Z z) in
      progress change (inject_Z z) with v in H
  | |- context [Qmake ?z ?d] =>
      let v := eval vm_compute in z in
      progress change (Qmake z d) with (Qmake v d)
  | |- context [Qmake ?z ?d] =>
      let v := eval vm_compute in d in
      progress change (Qmake z d) with (Qmake z v)
  | H : context [Qmake ?z ?d] |- _ =>
      let v := eval vm_compute in d in
      progress change (Qmake z d) with (Qmake z v) in H
  end.

Lemma Math_random_range (r : Q) :
  (0 <= r)%Q →
  (0 <= JS.Math_random r)%Q ∧ (JS.Math_random r <= 1 - (1 # 2 ^ 53))%Q.
Proof.
  intros H0. unfold JS.Math_random. cbv zeta.
  pose proof (Number_mono _ _ H0) as Hlo. rewrite Number_0 in Hlo.
  destruct (Qle_bool _ _) eqn:E.
  - apply Qle_bool_iff in E. by split.
  - split; [discriminate|apply Qle_refl].
Qed.

(** A Number of [0, 1) is the value of [Math.random()] as it is. *)
Lemma Math_random_Number (r : Q) :
  JS.is_Number r → (0 <= r)%Q → (r < 1)%Q → (JS.Math_random r == r)%Q.
Proof.
  intros Hn H0 H1. unfold JS.Math_random. cbv zeta.
  pose proof (Number_below_one r Hn H0 H1) as Hlast.
  assert (Qle_bool (JS.Number r) (1 - (1 # 2 ^ 53)) = true) as ->.
  { apply Qle_bool_iff. unfold JS.is_Number in Hn. by rewrite Hn. }
  exact Hn.
Qed.

(** For a draw of [Math.random()], which lies in [0, 1), the index
    [Math.floor(Math.random() * 3)] is 0, 1 or 2.  When the draw is a
    Number [r], the index is [k] only if [r] lies in the third
    [k/3, (k+1)/3) or less than [2^-53] below it: the rounding of the
    product can lift it to [k]. *)
Lemma random_index (r : Q) :
  (0 <= r)%Q → (r < 1)%Q →
  ∃ k : nat,
    (k < 3)%nat
    ∧ JS.Math_floor (JS.mul (JS.Math_random r) 3) = Z.of_nat k
    ∧ (JS.is_Number r →
       ((Z.of_nat k # 3) - (1 # 2 ^ 53) < r)%Q
       ∧ (r < (Z.of_nat k + 1) # 3)%Q).
Proof.
  intros H0 H1. unfold JS.Math_floor.
  destruct (Math_random_range r H0) as [Hx0 Hx1].
  set (x := JS.Math_random r) in *.
  assert (JS.mul x 3 == JS.Number (JS.Number x * 3))%Q as Hy.
  { unfold JS.mul. apply Number_comp. by rewrite Number_3. }
  assert (0 <= JS.Number x)%Q as Hn0.
  { rewrite <- Number_0. by apply Number_mono. }
  assert (JS.Number x <= 1 - (1 # 2 ^ 53))%Q as Hn1.
  { apply Qle_trans with (JS.Number (1 - (1 # 2 ^ 53))).
    - by apply Number_mono.
    - vm_compute. discriminate. }
  assert (0 <= JS.mul x 3)%Q as Hy0.
  { rewrite Hy, <- Number_0. apply Number_mono. lra. }
  assert (JS.mul x 3 < 3)%Q as Hy1.
  { rewrite Hy.
    apply Qle_lt_trans with (JS.Number ((1 - (1 # 2 ^ 53)) * 3)).
    - apply Number_mono. lra.
    - vm_compute. reflexivity. }
  pose proof (Qfloor_le (JS.mul x 3)) as Hf0.
  pose proof (Qlt_floor (JS.mul x 3)) as Hf1.
  assert (0 <= Qfloor (JS.mul x 3))%Z as Hi0.
  { change 0%Z with (Qfloor 0). by apply Qfloor_resp_le. }
  assert (Qfloor (JS.mul x 3) < 3)%Z as Hi1.
  { rewrite Zlt_Qlt. change (inject_Z 3) with 3%Q.
    by apply Qle_lt_trans with (JS.mul x 3). }
  exists (Z.to_nat (Qfloor (JS.mul x 3))).
  split; [lia|]. split; [lia|].
  intros Hnum.
  assert (JS.mul x 3 == JS.Number (r * 3))%Q as Hr.
  { rewrite Hy. apply Number_comp.
    assert (JS.Number x == r)%Q as ->; [|reflexivity].
    unfold x. rewrite (Number_comp _ _ (Math_random_Number r Hnum H0 H1)).
    exact Hnum. }
  assert (inject_Z (Qfloor (JS.mul x 3)) <= JS.Number (r * 3))%Q as Hg0
    by (rewrite <- Hr; exact Hf0).
  assert (JS.Number (r * 3) < inject_Z (Qfloor (JS.mul x 3) + 1))%Q as Hg1
    by (rewrite <- Hr; exact Hf1).
  clear Hf0 Hf1. rename Hg0 into Hf0. rename Hg1 into Hf1.
  assert (∀ c v : Q, (r * 3 <= c)%Q → (JS.Number c <= v)%Q →
                     (JS.Number (r * 3) <= v)%Q) as Hbelow.
  { intros c v Hc Hv. apply Qle_trans with (JS.Number c); [|exact Hv].
    by apply Number_mono. }
  assert (∀ c v : Q, (c <= r * 3)%Q → (v <= JS.Number c)%Q →
                     (v <= JS.Number (r * 3))%Q) as Habove.
  { intros c v Hc Hv. apply Qle_trans with (JS.Number c); [exact Hv|].
    by apply Number_mono. }
  rewrite Z2Nat.id by exact Hi0.
  clear Hx0 Hx1 Hy Hn0 Hn1 Hy0 Hy1 Hr. clearbody x.
  assert (Qfloor (JS.mul x 3) = 0 ∨ Qfloor (JS.mul x 3) = 1
          ∨ Qfloor (JS.mul x 3) = 2)%Z as [E | [E | E]] by lia;
    rewrite E in *; clear E; eval_inject_Z.
  - split; [lra|].
    apply Qnot_le_lt. intros Hge.
    assert (1 <= JS.Number (r * 3))%Q
      by (apply (Habove 1%Q); [lra|vm_compute; discriminate]).
    lra.
  - split.
    + apply Qnot_le_lt. intros Hle.
      assert (JS.Number (r * 3) <= 1 - (3 # 9007199254740992))%Q
        by (apply (Hbelow (1 - (3 # 9007199254740992))%Q);
            [lra|vm_compute; discriminate]).
      lra.
    + apply Qnot_le_lt. intros Hge.
      assert (2 <= JS.Number (r * 3))%Q
        by (apply (Habove 2%Q); [lra|vm_compute; discriminate]).
      lra.
  - split.
    + apply Qnot_le_lt. intros Hle.
      assert (JS.Number (r * 3) <= 2 - (1 # 2251799813685248))%Q
        by (apply (Hbelow (2 - (3 # 9007199254740992))%Q);
            [lra|vm_compute; discriminate]).
      lra.
    + apply Qnot_le_lt. intros Hge.
      assert (3 <= JS.Number (r * 3))%Q
        by (apply (Habove 3%Q); [lra|vm_compute; discriminate]).
      lra.
Qed.

Lemma randomResult_spec (r : Q) :
  (0 <= r)%Q → (r < 1)%Q →
  ∃ (k : nat) (m : ClassificationResult),
    mockResults !! k = Some m
    ∧ randomResult r = Some m
    ∧ JS.Math_floor (JS.mul (JS.Math_random r) 3) = Z.of_nat k
    ∧ (JS.is_Number r →
       ((Z.of_nat k # 3) - (1 # 2 ^ 53) < r)%Q
       ∧ (r < (Z.of_nat k + 1) # 3)%Q).
Proof.
  intros H0 H1. destruct (random_index r H0 H1) as (k & Hk & Hfloor & Hthird).
  assert (is_Some (mockResults !! k)) as [m Hm].
  { apply lookup_lt_is_Some. simpl. exact Hk. }
  exists k, m. split; [exact Hm|]. split; [|by split].
  unfold randomResult.
  change (inject_Z (Z.of_nat (List.length mockResults))) with 3%Q.
  rewrite Hfloor. unfold element.
  destruct (Z.ltb_spec (Z.of_nat k) 0) as [Hneg|_]; [lia|].
  by rewrite Nat2Z.id.
Qed.

(** [analyzeWaste] after its first [await], branch by branch. *)
Lemma analyzeWaste_resume_eq (net : Network) (s : State) :
  analyzeWaste_resume net s =
  let mock s := setIsAnalyzing false
                  (setClassification (randomResult (random net)) s) in
  match dataUrl net with
  | JS.Throw _ => mock s
  | JS.Return _ =>
      let s1 := perform (Fetch "/api/classify-waste") s in
      match classify net with
      | JS.Throw _ => mock s1
      | JS.Return ximilarResponse =>
          if ok ximilarResponse then
            match json ximilarResponse with
            | JS.Throw _ => mock s1
            | JS.Return result =>
                match processXimilarResult result with
                | JS.Throw _ => mock s1
                | JS.Return processedResult =>
                    setIsAnalyzing false
                      (setClassification (Some processedResult) s1)
                end
            end
          else mock s1
      end
  end.
Proof.
  unfold analyzeWaste_resume, tryCatch, analyzeWaste_try, analyzeWaste_catch.
  cbv [mbind Act_bind lift doState mret Act_ret].
  destruct (dataUrl net); [|reflexivity].
  destruct (classify net) as [resp|]; [|reflexivity].
  destruct (ok resp); [|reflexivity]. cbn [negb].
  destruct (json resp) as [x|]; [|reflexivity].
  destruct (processXimilarResult x); reflexivity.
Qed.

(** C2: when the call to the proxy answers with a status that is not a
    success or throws, [analyzeWaste] sets the classification to one of
    the three fixed mock results, each a complete result: the one of
    index [Math.floor(Math.random() * 3)], which is 0, 1 or 2.  When
    the draw is a Number [r], the result of index [k] is chosen only
    for [r] in the third [k/3, (k+1)/3) of the range or less than
    [2^-53] below it, where the rounding of the product lifts it to
    [k].  The flag of the analysis is lowered, and the only effects are
    the read of the data URL and at most one call to the proxy: no
    second call, no alert. *)
Theorem C2_failure_falls_back_to_mock (net : Network) (imageData : string)
  (s : State) :
  classifyFails net →
  (0 <= random net)%Q → (random net < 1)%Q →
  ∃ (k : nat) (m : ClassificationResult),
    List.length mockResults = 3%nat
    ∧ mockResults !! k = Some m
    ∧ validResult m
    ∧ JS.Math_floor (JS.mul (JS.Math_random (random net)) 3) = Z.of_nat k
    ∧ (JS.is_Number (random net) →
       ((Z.of_nat k # 3) - (1 # 2 ^ 53) < random net)%Q
       ∧ (random net < (Z.of_nat k + 1) # 3)%Q)
    ∧ classification (analyzeWaste net imageData s) = Some m
    ∧ isAnalyzing (analyzeWaste net imageData s) = false
    ∧ (effects (analyzeWaste net imageData s)
         = effects s ++ [Fetch imageData; Fetch "/api/classify-waste"]
       ∨ effects (analyzeWaste net imageData s)
         = effects s ++ [Fetch imageData]).
Proof.
  intros Hfail H0 H1.
  destruct (randomResult_spec (random net) H0 H1)
    as (k & m & Hk & Hm & Hfloor & Hthird).
  exists k, m.
  assert (validResult m) as Hvalid.
  { pose proof mockResults_valid as Hall. rewrite Forall_forall in Hall.
    apply Hall. by apply list_elem_of_lookup_2 in Hk. }
  do 5 (split; [done|]).
  unfold analyzeWaste. rewrite analyzeWaste_resume_eq. cbv zeta.
  unfold classifyFails in Hfail.
  destruct (dataUrl net).
  - destruct (classify net) as [resp|].
    + rewrite Hfail. simpl. rewrite Hm, <- app_assoc. auto.
    + simpl. rewrite Hm, <- app_assoc. auto.
  - simpl. rewrite Hm. auto.
Qed.

Lemma C2_failure_falls_back_to_mock_witness :
  ∃ (k : nat) (m : ClassificationResult),
    List.length mockResults = 3%nat
    ∧ mockResults !! k = Some m
    ∧ validResult m
    ∧ JS.Math_floor (JS.mul (JS.Math_random (random sampleNetDown)) 3)
      = Z.of_nat k
    ∧ (JS.is_Number (random sampleNetDown) →
       ((Z.of_nat k # 3) - (1 # 2 ^ 53) < random sampleNetDown)%Q
       ∧ (random sampleNetDown < (Z.of_nat k + 1) # 3)%Q)
    ∧ classification (analyzeWaste sampleNetDown sampleImage initialState)
      = Some m
    ∧ isAnalyzing (analyzeWaste sampleNetDown sampleImage initialState) = false
    ∧ (effects (analyzeWaste sampleNetDown sampleImage initialState)
       = effects initialState
         ++ [Fetch sampleImage; Fetch "/api/classify-waste"]
       ∨ effects (analyzeWaste sampleNetDown sampleImage initialState)
         = effects initialState ++ [Fetch sampleImage]).
Proof.
  apply (C2_failure_falls_back_to_mock sampleNetDown sampleImage initialState).
  - exact I.
  - unfold Qle. simpl. lia.
  - reflexivity.
Defined.

(** With [Math.random()] at 0.5 the second mock result is the one
    set. *)
Example mock_at_half :
  classification (analyzeWaste sampleNetDown sampleImage initialState)
  = Some {| type := Some recyclable;
            confidence := 88;
            item := "Plastic bottle";
            tips := Some "Clean and place in recycling bin. Check local recycling guidelines for proper disposal." |}.
Proof. vm_compute. reflexivity. Qed.

(** With [Math.random()] at 0.6666666666666666, a Number below 2/3,
    the product is rounded to 2 and the third mock result is the one
    set. *)
Example mock_below_two_thirds :
  JS.is_Number sampleTwoThirds
  ∧ (sampleTwoThirds < 2 # 3)%Q
  ∧ (sampleTwoThirds * 3 < 2)%Q
  ∧ (JS.mul sampleTwoThirds 3 == 2)%Q
  ∧ randomResult sampleTwoThirds = mockResults !! 2%nat.
Proof. split_and!; vm_compute; reflexivity. Qed.

(** ** C3: what the classify pipeline returns *)

(** What [processXimilarResult] returns has a confidence between 0 and
    100 when the probabilities lie between 0 and 1, and is a complete
    result when, besides, no label is in lower case a name inherited
    from [Object.prototype]. *)
Lemma processXimilarResult_valid (x : XimilarResult)
  (r : ClassificationResult) :
  processXimilarResult x = JS.Return r →
  probabilities_in_range x →
  (0 ≤ confidence r ≤ 100)%Z ∧ (no_prototype_label x → validResult r).
Proof.
  assert ((0 ≤ confidence unknownItem ≤ 100)%Z ∧ validResult unknownItem)
    as [Hu1 Hu2].
  { repeat split; simpl; by eauto || lia. }
  destruct x as [|[[|rec recs]|]]; try discriminate;
    try (intros [= <-] _; by split).
  unfold processXimilarResult, probabilities_in_range, no_prototype_label.
  simpl. destruct (outputs rec) as [|l|]; try discriminate;
    try (intros [= <-] _; by split).
  simpl. rewrite reduce_objects.
  destruct (has_null l); [discriminate|]. simpl.
  pose proof (fold_pick_spec (objects l)) as Hinv.
  destruct (fold_left pick (objects l) None) as [p|]; simpl in Hinv;
    [|intros [= <-] _; by split].
  destruct Hinv as [_ (i & Hi%list_elem_of_lookup_2 & _)].
  intros Hmap Hrange. rewrite Forall_forall in Hrange.
  destruct (Hrange p Hi) as [H0 H1].
  destruct (label p) as [raw|] eqn:Hraw;
    [|unfold mapPrediction in Hmap; rewrite Hraw in Hmap; discriminate].
  split.
  - destruct (mapPrediction_string p raw Hraw) as (ty & tp & Heq).
    rewrite Heq in Hmap. injection Hmap as <-. simpl.
    by apply Math_round_percent.
  - intros Hproto. rewrite Forall_forall in Hproto.
    specialize (Hproto p Hi raw Hraw).
    destruct (wasteMapping !! JS.toLowerCase raw) as [e|] eqn:Hlook.
    + rewrite (mapped_label_entry p raw e Hraw Hlook) in Hmap.
      injection Hmap as <-. repeat split; simpl; try by eauto.
      all: by apply Math_round_percent.
    + rewrite (unmapped_label_general_waste p raw Hraw Hlook Hproto) in Hmap.
      injection Hmap as <-. repeat split; simpl; try by eauto.
      all: by apply Math_round_percent.
Qed.

(** X9: the pipeline always sets a classification, whatever the network
    does; its confidence lies between 0 and 100 when the provider's
    probabilities lie between 0 and 1; and it is a complete result when
    no label of the payload is in lower case a name inherited from
    [Object.prototype]. *)
Lemma classify_pipeline_result (net : Network) (imageData : string)
  (s : State) :
  (0 <= random net)%Q → (random net < 1)%Q →
  (∀ x, receivedPayload net = Some x → probabilities_in_range x) →
  ∃ r, classification (analyzeWaste net imageData s) = Some r
       ∧ isAnalyzing (analyzeWaste net imageData s) = false
       ∧ (0 ≤ confidence r ≤ 100)%Z
       ∧ ((∀ x, receivedPayload net = Some x → no_prototype_label x) →
          validResult r).
Proof.
  intros H0 H1 Hrange.
  destruct (randomResult_spec (random net) H0 H1) as (k & m & Hk & Hm & _).
  assert (validResult m) as Hvalid.
  { pose proof mockResults_valid as Hall. rewrite Forall_forall in Hall.
    apply Hall. by apply list_elem_of_lookup_2 in Hk. }
  assert (∀ s' (P : Prop), ∃ r,
    classification
      (setIsAnalyzing false (setClassification (randomResult (random net)) s'))
    = Some r
    ∧ isAnalyzing
        (setIsAnalyzing false (setClassification (randomResult (random net)) s'))
      = false
    ∧ (0 ≤ confidence r ≤ 100)%Z
    ∧ (P → validResult r)) as Hmock.
  { intros s' P. exists m. rewrite Hm. repeat split; try done.
    all: by destruct Hvalid as (? & [? ?] & ?). }
  unfold analyzeWaste. rewrite analyzeWaste_resume_eq. cbv zeta.
  unfold receivedPayload in Hrange |- *.
  destruct (dataUrl net); [|apply Hmock].
  destruct (classify net) as [resp|]; [|apply Hmock].
  destruct (ok resp); [|apply Hmock].
  destruct (json resp) as [x|]; [|apply Hmock].
  destruct (processXimilarResult x) as [r|] eqn:Hr; [|apply Hmock].
  destruct (processXimilarResult_valid x r Hr (Hrange x eq_refl)) as [Hc Hv].
  exists r. split; [done|]. split; [done|]. split; [lia|].
  intros Hproto. by apply Hv, Hproto.
Qed.

(** C3 (the code departs from the claim): the proxy answers with a
    success and the payload
    [{records: [{outputs: [{label: "constructor", prob: 0.9}]}]}],
    whose probability lies in [0, 1]; the pipeline sets a result whose
    confidence is 90 and whose category is [undefined], no value of the
    enumeration. *)
Theorem C3_category_outside_enumeration :
  let x := payloadOf [ {| label := Some "constructor"; prob := 9 # 10 |} ] [] in
  let net := {| dataUrl := JS.Return tt;
                classify := JS.Return {| ok := true; json := JS.Return x |};
                random := 0 |} in
  probabilities_in_range x
  ∧ classification (analyzeWaste net "data:image/jpeg;base64,AAAA" initialState)
    = Some {| type := None;
              confidence := 90;
              item := "Constructor";
              tips := None |}.
Proof.
  split.
  - simpl. constructor; [|constructor]. simpl. split; lra.
  - vm_compute. reflexivity.
Qed.

(** ** C7: the degraded answers of the proxy *)

(** The answer of [POST], case by case. *)
Lemma POST_cases (request : Proxy.Request)
  (provider : JS.Exn Proxy.ProviderResponse) :
  Proxy.POST request provider =
  Proxy.NextResponse_json
    match Proxy.parsedRecords request with
    | JS.Return (Some (Proxy.RecordValue _ :: _)) =>
        match provider with
        | JS.Return resp =>
            if Proxy.ok resp then
              match Proxy.json resp with
              | JS.Return x => x
              | JS.Throw _ => Proxy.synthetic "general_waste" (75 # 100)
              end
            else Proxy.synthetic "plastic_bottle" (85 # 100)
        | JS.Throw _ => Proxy.synthetic "general_waste" (75 # 100)
        end
    | _ => Proxy.synthetic "general_waste" (75 # 100)
    end.
Proof.
  unfold Proxy.POST, Proxy.POST_try.
  destruct (Proxy.parsedRecords request) as [[[|[|b] recs]|]|];
    try reflexivity.
  destruct provider as [resp|]; [|reflexivity].
  cbv [mbind Exn_bind JS.bind JS.try_catch].
  destruct (Proxy.ok resp); [|reflexivity].
  cbn [negb]. by destruct (Proxy.json resp).
Qed.

Lemma POST_degraded (request : Proxy.Request)
  (provider : JS.Exn Proxy.ProviderResponse) :
  providerFails provider →
  Proxy.POST request provider
  = Proxy.NextResponse_json (Proxy.synthetic "plastic_bottle" (85 # 100))
  ∨ Proxy.POST request provider
    = Proxy.NextResponse_json (Proxy.synthetic "general_waste" (75 # 100)).
Proof.
  intros Hfail. rewrite POST_cases.
  destruct (Proxy.parsedRecords request) as [[[|[|b] recs]|]|]; auto.
  destruct provider as [resp|]; auto.
  simpl in Hfail. rewrite Hfail. auto.
Qed.

Lemma synthetic_results :
  processXimilarResult (Proxy.synthetic "plastic_bottle" (85 # 100))
  = JS.Return
      {| type := Some recyclable;
         confidence := 85;
         item := "Plastic Bottle";
         tips := Some "Clean and place in recycling bin. Check local recycling guidelines for proper disposal." |}
  ∧ processXimilarResult (Proxy.synthetic "general_waste" (75 # 100))
    = JS.Return
        {| type := Some non_biodegradable;
           confidence := 75;
           item := "General Waste";
           tips := Some "This item should go in your general waste bin." |}.
Proof. split; vm_compute; reflexivity. Qed.

(** C7: when the provider call throws or answers with a status that is
    not a success, [POST] still answers with status 200 and a body of
    the shape [{records: [{outputs: [{label, prob}]}]}] holding exactly
    one synthetic prediction: "plastic_bottle" at 0.85 or
    "general_waste" at 0.75.  The client sees a successful response and
    its mapper returns an ordinary mapped result from that body, not a
    fallback. *)
Theorem C7_proxy_degraded_shape (request : Proxy.Request)
  (provider : JS.Exn Proxy.ProviderResponse) :
  providerFails provider →
  ∃ (l : string) (p : Q) (r : ClassificationResult),
    Proxy.POST request provider =
    {| Proxy.res_status := 200;
       Proxy.body :=
         Payload (Some [ {| outputs := OutputsArray
                              [ {| label := Some l; prob := p |} ] |} ]) |}
    ∧ ((l = "plastic_bottle" ∧ p = (85 # 100)%Q
        ∧ r = {| type := Some recyclable;
                 confidence := 85;
                 item := "Plastic Bottle";
                 tips := Some "Clean and place in recycling bin. Check local recycling guidelines for proper disposal." |})
       ∨ (l = "general_waste" ∧ p = (75 # 100)%Q
          ∧ r = {| type := Some non_biodegradable;
                   confidence := 75;
                   item := "General Waste";
                   tips := Some "This item should go in your general waste bin." |}))
    ∧ (0 < p)%Q ∧ (p < 1)%Q
    ∧ ok (clientResponse (Proxy.POST request provider)) = true
    ∧ json (clientResponse (Proxy.POST request provider))
      = JS.Return (Proxy.body (Proxy.POST request provider))
    ∧ processXimilarResult (Proxy.body (Proxy.POST request provider))
      = JS.Return r
    ∧ validResult r.
Proof.
  intros Hfail. destruct synthetic_results as [Hpb Hgw].
  destruct (POST_degraded request provider Hfail) as [-> | ->].
  - eexists "plastic_bottle", (85 # 100)%Q, _.
    split; [reflexivity|]. split; [left; split_and!; reflexivity|].
    split; [reflexivity|]. split; [reflexivity|]. split; [reflexivity|].
    split; [reflexivity|]. split; [exact Hpb|].
    split_and!; simpl; by eauto || lia.
  - eexists "general_waste", (75 # 100)%Q, _.
    split; [reflexivity|]. split; [right; split_and!; reflexivity|].
    split; [reflexivity|]. split; [reflexivity|]. split; [reflexivity|].
    split; [reflexivity|]. split; [exact Hgw|].
    split_and!; simpl; by eauto || lia.
Qed.

Lemma C7_proxy_degraded_shape_witness :
  ∃ (l : string) (p : Q) (r : ClassificationResult),
    Proxy.POST sampleRequest sample503 =
    {| Proxy.res_status := 200;
       Proxy.body :=
         Payload (Some [ {| outputs := OutputsArray
                              [ {| label := Some l; prob := p |} ] |} ]) |}
    ∧ ((l = "plastic_bottle" ∧ p = (85 # 100)%Q
        ∧ r = {| type := Some recyclable;
                 confidence := 85;
                 item := "Plastic Bottle";
                 tips := Some "Clean and place in recycling bin. Check local recycling guidelines for proper disposal." |})
       ∨ (l = "general_waste" ∧ p = (75 # 100)%Q
          ∧ r = {| type := Some non_biodegradable;
                   confidence := 75;
                   item := "General Waste";
                   tips := Some "This item should go in your general waste bin." |}))
    ∧ (0 < p)%Q ∧ (p < 1)%Q
    ∧ ok (clientResponse (Proxy.POST sampleRequest sample503)) = true
    ∧ json (clientResponse (Proxy.POST sampleRequest sample503))
      = JS.Return (Proxy.body (Proxy.POST sampleRequest sample503))
    ∧ processXimilarResult (Proxy.body (Proxy.POST sampleRequest sample503))
      = JS.Return r
    ∧ validResult r.
Proof.
  apply (C7_proxy_degraded_shape sampleRequest sample503).
  reflexivity.
Defined.

(** The two degraded answers, one per failure. *)
Example proxy_status_503 :
  Proxy.body (Proxy.POST sampleRequest sample503)
  = payloadOf [ {| label := Some "plastic_bottle"; prob := 85 # 100 |} ] [].
Proof. reflexivity. Qed.

Example proxy_transport_exception :
  Proxy.body (Proxy.POST sampleRequest (JS.Throw JS.NetworkError))
  = payloadOf [ {| label := Some "general_waste"; prob := 75 # 100 |} ] [].
Proof. reflexivity. Qed.

(** ** C8: a capture without a frame *)

(** C8: when the video has produced no frame of non-zero width and
    height, [captureImage] only raises an alert: the one that says the
    video is not ready when the video and the canvas are mounted, the
    one that says the camera or the canvas is not ready otherwise.  No
    image is stored, no analysis starts, nothing is fetched and the
    stream is left as it was. *)
Theorem C8_frame_not_ready (dom : Dom) (s : State) :
  frameNotReady dom →
  ∃ message,
    captureImage dom s = alert message s
    ∧ (message = msgVideoNotReady ∨ message = msgNotMounted)
    ∧ (is_Some (videoRef dom) → is_Some (canvasRef dom) →
       message = msgVideoNotReady)
    ∧ capturedImage (captureImage dom s) = capturedImage s
    ∧ isAnalyzing (captureImage dom s) = isAnalyzing s
    ∧ classification (captureImage dom s) = classification s
    ∧ streamRef (captureImage dom s) = streamRef s
    ∧ liveStreams (captureImage dom s) = liveStreams s
    ∧ effects (captureImage dom s) = effects s ++ [Alert message].
Proof.
  unfold frameNotReady, captureImage. intros Hnot.
  destruct (videoRef dom) as [video|]; [destruct (canvasRef dom) as [canvas|]|].
  - exists msgVideoNotReady.
    assert (((videoWidth video =? 0) || (videoHeight video =? 0))%N = true)
      as ->.
    { apply orb_true_iff. destruct Hnot as [H | H]; [left | right];
        by apply N.eqb_eq. }
    split; [reflexivity|]. split; [by left|]. split; [done|].
    repeat split.
  - exists msgNotMounted.
    split; [reflexivity|]. split; [by right|].
    split; [by intros _ [? ?]|]. repeat split.
  - exists msgNotMounted.
    split; [reflexivity|]. split; [by right|].
    split; [by intros [? ?]|]. repeat split.
Qed.

Lemma C8_frame_not_ready_witness :
  ∃ message,
    captureImage sampleNoFrame initialState = alert message initialState
    ∧ (message = msgVideoNotReady ∨ message = msgNotMounted)
    ∧ (is_Some (videoRef sampleNoFrame) → is_Some (canvasRef sampleNoFrame) →
       message = msgVideoNotReady)
    ∧ capturedImage (captureImage sampleNoFrame initialState)
      = capturedImage initialState
    ∧ isAnalyzing (captureImage sampleNoFrame initialState)
      = isAnalyzing initialState
    ∧ classification (captureImage sampleNoFrame initialState)
      = classification initialState
    ∧ streamRef (captureImage sampleNoFrame initialState)
      = streamRef initialState
    ∧ liveStreams (captureImage sampleNoFrame initialState)
      = liveStreams initialState
    ∧ effects (captureImage sampleNoFrame initialState)
      = effects initialState ++ [Alert message].
Proof.
  apply (C8_frame_not_ready sampleNoFrame initialState).
  simpl. left. reflexivity.
Defined.

(** ** C9: reset, cancel and the stream *)

Lemma stopCamera_releases (s : State) :
  isCapturing (stopCamera s) = false
  ∧ isInitializingCamera (stopCamera s) = false
  ∧ streamRef (stopCamera s) = None
  ∧ (∀ stream, streamRef s = Some stream → stream ∉ liveStreams (stopCamera s))
  ∧ capturedImage (stopCamera s) = capturedImage s.
Proof.
  unfold stopCamera.
  destruct (streamRef s) as [stream|] eqn:Href; simpl;
    repeat split; try done.
  intros stream' Heq. injection Heq as Heq. subst stream'.
  rewrite elem_of_difference, elem_of_singleton. tauto.
Qed.



Lemma analyzeWaste_resume_unchanged (net : Network) (s : State) :
  capturedImage (analyzeWaste_resume net s) = capturedImage s
  ∧ streamRef (analyzeWaste_resume net s) = streamRef s
  ∧ liveStreams (analyzeWaste_resume net s) = liveStreams s
  ∧ isAnalyzing (analyzeWaste_resume net s) = false.
Proof.
  rewrite analyzeWaste_resume_eq. cbv zeta.
  repeat case_match; by split_and!.
Qed.

(** What a capture that takes a picture leaves: the image stored, the
    analysis under way, the stream released. *)
Lemma captureImage_captures (dom : Dom) (s : State) :
  captures dom →
  ∃ image,
    image ≠ ""
    ∧ capturedImage (captureImage dom s) = Some image
    ∧ isAnalyzing (captureImage dom s) = true
    ∧ streamRef (captureImage dom s) = None
    ∧ (∀ stream, streamRef s = Some stream →
                 stream ∉ liveStreams (captureImage dom s)).
Proof.
  intros (video & canvas & Hv & Hc & Hw & Hh & Hctx).
  exists (toDataURL canvas). split; [discriminate|].
  unfold captureImage. rewrite Hv, Hc, Hctx.
  apply N.eqb_neq in Hw, Hh. rewrite Hw, Hh. cbn [orb].
  destruct (stopCamera_releases
              (setCapturedImage (Some (toDataURL canvas)) s))
    as (_ & _ & Href & Hlive & Himg).
  cbn [capturedImage streamRef setCapturedImage] in Hlive, Himg.
  unfold analyzeWaste_begin, perform, setIsAnalyzing.
  cbn [capturedImage isAnalyzing streamRef liveStreams].
  by rewrite Himg, Href.
Qed.



(** For a value of [Math.random()] in [0, 1), the analysis always ends
    with a classification set. *)
Lemma analyzeWaste_resume_classified (net : Network) (s : State) :
  (0 <= random net)%Q → (random net < 1)%Q →
  is_Some (classification (analyzeWaste_resume net s)).
Proof.
  intros H0 H1.
  destruct (randomResult_spec (random net) H0 H1) as (k & m & _ & Hm & _).
  rewrite analyzeWaste_resume_eq. cbv zeta. rewrite Hm.
  repeat case_match; simpl; by eauto.
Qed.

(** From any state, a capture that takes a picture, the end of the
    analysis and a reset lead back to the Start Camera card with no
    stream held and nothing retained. *)
Lemma capture_analysis_reset (dom : Dom) (net : Network) (s : State) :
  captures dom →
  (0 <= random net)%Q → (random net < 1)%Q →
  showsResult (analyzeWaste_resume net (captureImage dom s)) = true
  ∧ streamRef (analyzeWaste_resume net (captureImage dom s)) = None
  ∧ (∀ stream, streamRef s = Some stream →
       stream ∉ liveStreams (analyzeWaste_resume net (captureImage dom s)))
  ∧ showsStart (resetApp (analyzeWaste_resume net (captureImage dom s))) = true
  ∧ streamRef (resetApp (analyzeWaste_resume net (captureImage dom s))) = None.
Proof.
  intros Hcap H0 H1.
  destruct (captureImage_captures dom s Hcap)
    as (image & Hne & Himg & _ & Href & Hlive).
  destruct (analyzeWaste_resume_unchanged net (captureImage dom s))
    as (Himg' & Href' & Hlive' & Han).
  pose proof (analyzeWaste_resume_classified net (captureImage dom s) H0 H1)
    as Hcls.
  split_and!.
  - unfold showsResult. rewrite Himg', Himg, Han.
    rewrite bool_decide_eq_true_2 by done. simpl.
    apply String.eqb_neq in Hne. by rewrite Hne.
  - by rewrite Href'.
  - intros stream Hs. rewrite Hlive'. by apply Hlive.
  - reflexivity.
  - change (streamRef (analyzeWaste_resume net (captureImage dom s)) = None).
    by rewrite Href'.
Qed.

(** C9 (the code departs from the claim): the view comes back to the
    Start Camera card from the initializing state with a stream held.
    [getUserMedia] resolves with a stream while the [<video>] element,
    which is rendered only while capturing, is not mounted;
    [startCamera] stores the stream, registers nothing and lowers the
    initializing flag.  The Start Camera card is shown again, in a
    reachable state, and the stream is held, its tracks live. *)
Lemma C9_start_card_with_stream_held :
  let initializing := startCamera_begin (sampleCamera false) initialState in
  let settled := startCamera_resume (sampleCamera false) initializing in
  showsStart initialState = true
  ∧ isInitializingCamera initializing = true
  ∧ showsStart initializing = false
  ∧ settled = startCamera (sampleCamera false) initialState
  ∧ reachable settled
  ∧ showsStart settled = true
  ∧ streamRef settled = Some 1%nat
  ∧ 1%nat ∈ liveStreams settled
  ∧ pending settled = [].
Proof.
  cbv zeta. split_and!; try reflexivity.
  eapply reachable_step; [apply reachable_initial|].
  apply (step_start (sampleCamera false) initialState).
  reflexivity.
Qed.



(** * Further properties of the code *)

(** ** The mapper *)

Lemma first_maximum_unique (l : list Prediction) (p p' : Prediction) :
  first_maximum l p → first_maximum l p' → p = p'.
Proof.
  intros (i & Hi & Hmax & Hbefore) (i' & Hi' & Hmax' & Hbefore').
  destruct (Nat.lt_trichotomy i i') as [Hlt | [-> | Hlt]].
  - specialize (Hbefore' i p Hlt Hi).
    specialize (Hmax p' (list_elem_of_lookup_2 _ _ _ Hi')). lra.
  - congruence.
  - specialize (Hbefore i' p' Hlt Hi').
    specialize (Hmax' p (list_elem_of_lookup_2 _ _ _ Hi)). lra.
Qed.

(** X1: the fold of [processXimilarResult] selects the prediction [p]
    exactly when [p] is the first prediction of maximum probability of
    the list and its probability is greater than 0; it selects nothing
    exactly when no prediction of the list has a probability greater
    than 0. *)
Theorem topPrediction_characterized (l : list Prediction) :
  (∀ p, topPrediction (OutputsArray l) = JS.Return (Some p)
        ↔ first_maximum l p ∧ (0 < prob p)%Q)
  ∧ (topPrediction (OutputsArray l) = JS.Return None
     ↔ ∀ q, q ∈ l → (prob q <= 0)%Q).
Proof.
  rewrite topPrediction_OutputsArray. pose proof (fold_pick_spec l) as Hinv.
  destruct (fold_left pick l None) as [top|]; simpl in Hinv.
  - destruct Hinv as [Hpos Hfirst]. split.
    + intros p. split.
      * intros [= <-]. by split.
      * intros [Hp _]. f_equal. f_equal.
        by apply (first_maximum_unique l).
    + split; [discriminate|].
      intros Hall. destruct Hfirst as (i & Hi & _).
      specialize (Hall top (list_elem_of_lookup_2 _ _ _ Hi)). lra.
  - split.
    + intros p. split; [discriminate|].
      intros [(i & Hi & _) Hpos].
      specialize (Hinv p (list_elem_of_lookup_2 _ _ _ Hi)). lra.
    + split; [by intros _|done].
Qed.

Lemma pick_positive_or_null (acc : option Prediction) (x : Prediction) :
  positive_or_null acc → positive_or_null (pick acc x).
Proof.
  intros Hacc. unfold pick.
  destruct (JS.gt _ _) eqn:E; [|exact Hacc].
  apply gt_true in E. destruct acc as [p|]; simpl in *.
  - pose proof (number_or_zero (prob p)) as Hor.
    unfold JS.number_or in *. destruct (Qeq_bool (prob p) 0); lra.
  - exact E.
Qed.

Lemma pick_nonpositive (acc : option Prediction) (x : Prediction) :
  positive_or_null acc → JS.gt (prob x) 0 = false → pick acc x = acc.
Proof.
  intros Hacc Hx%gt_false. unfold pick.
  destruct (JS.gt _ _) eqn:E; [|reflexivity].
  apply gt_true in E. destruct acc as [p|]; simpl in *.
  - pose proof (number_or_zero (prob p)) as Hor.
    unfold JS.number_or in *. destruct (Qeq_bool (prob p) 0); lra.
  - lra.
Qed.

Lemma fold_pick_filter (l : list Prediction) :
  ∀ acc, positive_or_null acc →
  fold_left pick (List.filter (λ q, JS.gt (prob q) 0) l) acc
  = fold_left pick l acc.
Proof.
  induction l as [|x l IH]; intros acc Hacc; simpl; [done|].
  destruct (JS.gt (prob x) 0) eqn:E; simpl.
  - apply IH. by apply pick_positive_or_null.
  - rewrite (pick_nonpositive acc x Hacc E). by apply IH.
Qed.

(** X2: predictions whose probability is not greater than 0 have no
    part in the result: with them removed from the outputs list,
    [processXimilarResult] returns (or throws) the same. *)
Theorem nonpositive_predictions_ignored (l : list Prediction)
  (rest : list XRecord) :
  processXimilarResult
    (payloadOf (List.filter (λ q, JS.gt (prob q) 0) l) rest)
  = processXimilarResult (payloadOf l rest).
Proof.
  rewrite !processXimilarResult_payloadOf.
  by rewrite fold_pick_filter.
Qed.

(** X3: the confidence does not depend on the order of the
    predictions: when the outputs lists of two payloads are
    permutations of each other and both are mapped to a result, the two
    results have the same confidence.  (Of predictions of equal
    probability the first-listed one gives the label, so the other
    fields can differ.) *)
Theorem confidence_order_independent (l l' : list Prediction)
  (rest rest' : list XRecord) (r r' : ClassificationResult) :
  l ≡ₚ l' →
  processXimilarResult (payloadOf l rest) = JS.Return r →
  processXimilarResult (payloadOf l' rest') = JS.Return r' →
  confidence r = confidence r'.
Proof.
  intros Hperm. rewrite !processXimilarResult_payloadOf.
  pose proof (fold_pick_spec l) as Hinv.
  pose proof (fold_pick_spec l') as Hinv'.
  assert (∀ p raw x, mapPrediction p = JS.Return x →
                     label p = Some raw →
                     confidence x = JS.Math_round (JS.mul (prob p) 100)) as Hconf.
  { intros p raw x Hx Hraw.
    destruct (mapPrediction_string p raw Hraw) as (ty & tp & Heq).
    rewrite Heq in Hx. by injection Hx as <-. }
  assert (∀ p x, mapPrediction p = JS.Return x → is_Some (label p)) as Hlabel.
  { intros p x Hx. unfold mapPrediction in Hx.
    destruct (label p); [by eauto|discriminate]. }
  destruct (fold_left pick l None) as [p|],
           (fold_left pick l' None) as [p'|]; simpl in Hinv, Hinv'.
  - intros Hr Hr'.
    destruct (Hlabel p r Hr) as [raw Hraw].
    destruct (Hlabel p' r' Hr') as [raw' Hraw'].
    rewrite (Hconf p raw r Hr Hraw), (Hconf p' raw' r' Hr' Hraw').
    destruct Hinv as [_ (i & Hi%list_elem_of_lookup_2 & Hmax & _)].
    destruct Hinv' as [_ (i' & Hi'%list_elem_of_lookup_2 & Hmax' & _)].
    assert (prob p' <= prob p)%Q by (apply Hmax; by rewrite Hperm).
    assert (prob p <= prob p')%Q by (apply Hmax'; by rewrite <- Hperm).
    assert (prob p == prob p')%Q as Heq by lra.
    unfold JS.Math_round. apply Qfloor_comp.
    by rewrite (mul_comp _ _ 100 Heq).
  - destruct Hinv as [Hpos (i & Hi%list_elem_of_lookup_2 & _)].
    rewrite Hperm in Hi. specialize (Hinv' p Hi). lra.
  - destruct Hinv' as [Hpos (i & Hi%list_elem_of_lookup_2 & _)].
    rewrite <- Hperm in Hi. specialize (Hinv p' Hi). lra.
  - by intros [= <-] [= <-].
Qed.

Lemma confidence_order_independent_witness :
  ∃ r r',
    processXimilarResult (payloadOf sampleTwo []) = JS.Return r
    ∧ processXimilarResult (payloadOf (reverse sampleTwo) []) = JS.Return r'
    ∧ confidence r = confidence r'.
Proof.
  eexists _, _. split; [reflexivity|]. split; [reflexivity|].
  apply (confidence_order_independent sampleTwo (reverse sampleTwo) [] []).
  - symmetry. apply reverse_Permutation.
  - reflexivity.
  - reflexivity.
Defined.

(** X4: [processXimilarResult] throws exactly on a null payload, on an
    [outputs] that is not an array, on an array with a null element,
    and when the prediction it selects has no string label; a
    prediction without a string label that is not selected does no
    harm, and neither does an element without a [prob].  What it throws
    is a [TypeError]. *)
Theorem processXimilarResult_throws (x : XimilarResult) :
  (processXimilarResult x = JS.Throw JS.TypeError ↔ throwing x)
  ∧ (∀ e, processXimilarResult x = JS.Throw e ↔
          e = JS.TypeError ∧ throwing x).
Proof.
  assert (∀ top, (∃ e, mapPrediction top = JS.Throw e) → label top = None)
    as Hmap.
  { intros top [e He]. destruct (label top) as [raw|] eqn:Hraw; [|done].
    destruct (mapPrediction_string top raw Hraw) as (ty & tp & Heq).
    rewrite Heq in He. discriminate. }
  assert (∀ e, processXimilarResult x = JS.Throw e → e = JS.TypeError)
    as Htype.
  { intros e He.
    destruct x as [|[[|rec recs]|]]; try discriminate; [by injection He|].
    unfold processXimilarResult in He. simpl in He.
    destruct (outputs rec) as [|l|]; try discriminate; [|by injection He].
    simpl in He. rewrite reduce_objects in He.
    destruct (has_null l); [by injection He|]. simpl in He.
    destruct (fold_left pick (objects l) None) as [top|]; [|discriminate].
    pose proof (Hmap top (ex_intro _ e He)) as Hnone.
    unfold mapPrediction in He. rewrite Hnone in He. by injection He. }
  assert (processXimilarResult x = JS.Throw JS.TypeError ↔ throwing x) as H.
  { destruct x as [|[[|rec recs]|]]; try (by split).
    unfold processXimilarResult, throwing. simpl.
    destruct (outputs rec) as [|l|]; try (by split).
    simpl. rewrite reduce_objects, <- has_null_elem_of.
    destruct (has_null l); simpl; [split; [by left|done]|].
    pose proof (fold_pick_spec (objects l)) as Hinv.
    destruct (fold_left pick (objects l) None) as [top|]; simpl in Hinv.
    - destruct Hinv as [Hpos Hfirst]. split.
      + intros Hthrow. right. exists top. split_and!; try done.
        apply Hmap. by eauto.
      + intros [Hnull | (p & Hp & _ & Hnolabel)]; [done|].
        rewrite (first_maximum_unique _ p top Hp Hfirst) in Hnolabel.
        unfold mapPrediction. by rewrite Hnolabel.
    - split; [discriminate|].
      intros [Hnull | (p & (i & Hi%list_elem_of_lookup_2 & _) & Hpos & _)];
        [done|].
      specialize (Hinv p Hi). lra. }
  split; [exact H|].
  intros e. split.
  - intros He. pose proof (Htype e He) as ->. split; [done|by apply H].
  - intros [-> Hx]. by apply H.
Qed.

(** A prediction without a string label does no harm when another one
    is selected, and makes the mapper throw when it is. *)
Example unlabelled_prediction :
  processXimilarResult
    (payloadOf [ {| label := None; prob := 1 # 10 |};
                 {| label := Some "paper"; prob := 9 # 10 |} ] [])
  = JS.Return
      {| type := Some recyclable;
         confidence := 90;
         item := "Paper";
         tips := Some "Remove any plastic coating and place in paper recycling bin." |}
  ∧ processXimilarResult
      (payloadOf [ {| label := None; prob := 9 # 10 |};
                   {| label := Some "paper"; prob := 1 # 10 |} ] [])
    = JS.Throw JS.TypeError.
Proof. split; vm_compute; reflexivity. Qed.

(** A null element makes the mapper throw wherever it stands; an
    element without a [prob] is passed over. *)
Example null_element :
  processXimilarResult
    (Payload (Some [ {| outputs :=
                          OutputsElements
                            [ ElementObject {| label := Some "paper";
                                               prob := 9 # 10 |};
                              ElementNull ] |} ]))
  = JS.Throw JS.TypeError
  ∧ processXimilarResult
      (Payload (Some [ {| outputs := OutputsElements [ ElementNull ] |} ]))
    = JS.Throw JS.TypeError
  ∧ processXimilarResult
      (Payload (Some [ {| outputs :=
                            OutputsElements
                              [ ElementOther;
                                ElementObject {| label := Some "paper";
                                                 prob := 9 # 10 |} ] |} ]))
    = JS.Return
        {| type := Some recyclable;
           confidence := 90;
           item := "Paper";
           tips := Some "Remove any plastic coating and place in paper recycling bin." |}.
Proof. split_and!; vm_compute; reflexivity. Qed.

(** X5: a label that, in lower case, is not a key of the table and is
    neither "constructor" nor "__proto__" gets the category
    non-biodegradable and the tip of the "general_waste" entry. *)
Theorem unmapped_labels_use_general_waste (top : Prediction) (raw : string) :
  label top = Some raw →
  wasteMapping !! JS.toLowerCase raw = None →
  JS.toLowerCase raw ≠ "constructor" →
  JS.toLowerCase raw ≠ "__proto__" →
  mapPrediction top =
  JS.Return
    {| type := Some non_biodegradable;
       confidence := JS.Math_round (JS.mul (prob top) 100);
       item := JS.capitalize_words (JS.replace_underscores raw);
       tips := Some "This item should go in your general waste bin." |}.
Proof.
  intros Hraw Hnone Hc Hp.
  apply unmapped_label_general_waste; try done.
  intros Hin. by destruct (lower_prototype_key raw Hin).
Qed.

Lemma unmapped_labels_use_general_waste_witness :
  mapPrediction sampleUnmapped =
  JS.Return
    {| type := Some non_biodegradable;
       confidence := JS.Math_round (JS.mul (prob sampleUnmapped) 100);
       item := JS.capitalize_words (JS.replace_underscores "Banana_Peel");
       tips := Some "This item should go in your general waste bin." |}.
Proof.
  apply (unmapped_labels_use_general_waste sampleUnmapped "Banana_Peel").
  - reflexivity.
  - vm_compute. reflexivity.
  - vm_compute. discriminate.
  - vm_compute. discriminate.
Defined.

(** X6: every key of the table is its own lower case and is none of
    the names inherited from [Object.prototype]; so no entry is dead:
    a prediction labelled with a key gets the category and the tip of
    that key's entry. *)
Theorem table_entries_reachable (k : string) (e : MappingEntry) (p : Q) :
  wasteMapping !! k = Some e →
  JS.toLowerCase k = k
  ∧ (k ∉ JS.Object_prototype_keys)
  ∧ mapPrediction {| label := Some k; prob := p |} =
    JS.Return
      {| type := Some (entry_type e);
         confidence := JS.Math_round (JS.mul p 100);
         item := JS.capitalize_words (JS.replace_underscores k);
         tips := Some (entry_tips e) |}.
Proof.
  intros Hlook.
  assert (JS.toLowerCase k = k ∧ k ∉ JS.Object_prototype_keys) as [Hlow Hproto].
  { pose proof Hlook as Hin. unfold wasteMapping in Hin.
    apply elem_of_list_to_map_2 in Hin.
    repeat (apply elem_of_cons in Hin as [[= -> _] | Hin];
            [split; [reflexivity|];
             apply (bool_decide_unpack _); vm_compute; exact I |]).
    by apply not_elem_of_nil in Hin. }
  split; [exact Hlow|]. split; [exact Hproto|].
  apply (mapped_label_entry {| label := Some k; prob := p |} k e);
    [reflexivity|]. by rewrite Hlow.
Qed.

Lemma table_entries_reachable_witness :
  JS.toLowerCase "paper" = "paper"
  ∧ ("paper" ∉ JS.Object_prototype_keys)
  ∧ mapPrediction {| label := Some "paper"; prob := 1 # 2 |} =
    JS.Return
      {| type := Some recyclable;
         confidence := JS.Math_round (JS.mul (1 # 2) 100);
         item := JS.capitalize_words (JS.replace_underscores "paper");
         tips := Some "Remove any plastic coating and place in paper recycling bin." |}.
Proof.
  apply (table_entries_reachable "paper"
           {| entry_type := recyclable;
              entry_tips := "Remove any plastic coating and place in paper recycling bin." |}).
  vm_compute. reflexivity.
Defined.

Lemma char_lower_upper (c : ascii) :
  JS.char_toLowerCase (JS.char_toUpperCase c) = JS.char_toLowerCase c.
Proof. destruct c as [[] [] [] [] [] [] [] []]; reflexivity. Qed.

Lemma char_lower_lower (c : ascii) :
  JS.char_toLowerCase (JS.char_toLowerCase c) = JS.char_toLowerCase c.
Proof. destruct c as [[] [] [] [] [] [] [] []]; reflexivity. Qed.

Lemma char_upper_upper (c : ascii) :
  JS.char_toUpperCase (JS.char_toUpperCase c) = JS.char_toUpperCase c.
Proof. destruct c as [[] [] [] [] [] [] [] []]; reflexivity. Qed.

Lemma char_upper_word (c : ascii) :
  JS.is_word_char (JS.char_toUpperCase c) = JS.is_word_char c.
Proof. destruct c as [[] [] [] [] [] [] [] []]; reflexivity. Qed.

Lemma char_upper_underscore (c : ascii) :
  Ascii.eqb (JS.char_toUpperCase c) "_" = Ascii.eqb c "_".
Proof. destruct c as [[] [] [] [] [] [] [] []]; reflexivity. Qed.

Lemma toLowerCase_toUpperCase (s : string) :
  JS.toLowerCase (toUpperCase s) = JS.toLowerCase s.
Proof.
  unfold JS.toLowerCase, toUpperCase.
  induction s as [|c rest IH]; cbn [JS.map_chars]; [done|].
  by rewrite char_lower_upper, IH.
Qed.

Lemma toLowerCase_toLowerCase (s : string) :
  JS.toLowerCase (JS.toLowerCase s) = JS.toLowerCase s.
Proof.
  unfold JS.toLowerCase.
  induction s as [|c rest IH]; cbn [JS.map_chars]; [done|].
  by rewrite char_lower_lower, IH.
Qed.

(** The category and the tip depend on the label through its lower
    case only. *)
Lemma mapPrediction_lower (raw raw' : string) (p : Q) :
  JS.toLowerCase raw = JS.toLowerCase raw' →
  ∃ ty tp,
    mapPrediction {| label := Some raw; prob := p |} =
    JS.Return {| type := ty;
                 confidence := JS.Math_round (JS.mul p 100);
                 item := JS.capitalize_words (JS.replace_underscores raw);
                 tips := tp |}
    ∧ mapPrediction {| label := Some raw'; prob := p |} =
      JS.Return {| type := ty;
                   confidence := JS.Math_round (JS.mul p 100);
                   item := JS.capitalize_words (JS.replace_underscores raw');
                   tips := tp |}.
Proof.
  intros Heq. unfold mapPrediction. cbn [label prob]. rewrite <- Heq.
  unfold JS.get at 2 4. rewrite general_waste_entry.
  destruct (JS.get wasteMapping (JS.toLowerCase raw)); simpl; eauto.
Qed.

(** X7: for a label of ASCII characters, the category and the tip do
    not depend on the letter case: the label written in upper case, and
    the label written in lower case, get the same category and the same
    tip as the label itself.  (Outside ASCII the upper case of a letter
    can be an ASCII letter, as that of the dotless i is, and the label
    in upper case can then be a key of the table when the label is
    not.) *)
Theorem category_ignores_letter_case (raw : string) (p : Q) :
  all_chars is_ascii raw = true →
  ∃ ty tp,
    mapPrediction {| label := Some raw; prob := p |} =
    JS.Return {| type := ty;
                 confidence := JS.Math_round (JS.mul p 100);
                 item := JS.capitalize_words (JS.replace_underscores raw);
                 tips := tp |}
    ∧ mapPrediction {| label := Some (toUpperCase raw); prob := p |} =
      JS.Return {| type := ty;
                   confidence := JS.Math_round (JS.mul p 100);
                   item := JS.capitalize_words
                             (JS.replace_underscores (toUpperCase raw));
                   tips := tp |}
    ∧ mapPrediction {| label := Some (JS.toLowerCase raw); prob := p |} =
      JS.Return {| type := ty;
                   confidence := JS.Math_round (JS.mul p 100);
                   item := JS.capitalize_words
                             (JS.replace_underscores (JS.toLowerCase raw));
                   tips := tp |}.
Proof.
  intros _.
  destruct (mapPrediction_lower raw (toUpperCase raw) p) as (ty & tp & H1 & H2).
  { by rewrite toLowerCase_toUpperCase. }
  destruct (mapPrediction_lower raw (JS.toLowerCase raw) p)
    as (ty' & tp' & H1' & H3).
  { by rewrite toLowerCase_toLowerCase. }
  rewrite H1 in H1'. injection H1' as <- <-.
  by exists ty, tp.
Qed.

Lemma category_ignores_letter_case_witness :
  ∃ ty tp,
    mapPrediction {| label := Some "Glass_Bottle"; prob := 1 # 2 |} =
    JS.Return {| type := ty;
                 confidence := JS.Math_round (JS.mul (1 # 2) 100);
                 item := JS.capitalize_words
                           (JS.replace_underscores "Glass_Bottle");
                 tips := tp |}
    ∧ mapPrediction {| label := Some (toUpperCase "Glass_Bottle");
                       prob := 1 # 2 |} =
      JS.Return {| type := ty;
                   confidence := JS.Math_round (JS.mul (1 # 2) 100);
                   item := JS.capitalize_words
                             (JS.replace_underscores
                                (toUpperCase "Glass_Bottle"));
                   tips := tp |}
    ∧ mapPrediction {| label := Some (JS.toLowerCase "Glass_Bottle");
                       prob := 1 # 2 |} =
      JS.Return {| type := ty;
                   confidence := JS.Math_round (JS.mul (1 # 2) 100);
                   item := JS.capitalize_words
                             (JS.replace_underscores
                                (JS.toLowerCase "Glass_Bottle"));
                   tips := tp |}.
Proof.
  apply (category_ignores_letter_case "Glass_Bottle" (1 # 2)).
  reflexivity.
Defined.

(** An upper-case label of the table is mapped like the key. *)
Example upper_case_label :
  processXimilarResult
    (payloadOf [ {| label := Some "GLASS_BOTTLE"; prob := 1 # 2 |} ] [])
  = JS.Return
      {| type := Some recyclable;
         confidence := 50;
         item := "GLASS BOTTLE";
         tips := Some "Clean thoroughly and place in glass recycling container." |}.
Proof. vm_compute. reflexivity. Qed.

Lemma map_chars_length (f : ascii -> ascii) (s : string) :
  String.length (JS.map_chars f s) = String.length s.
Proof. induction s as [|c rest IH]; simpl; congruence. Qed.

Lemma capitalize_from_length (b : bool) (s : string) :
  String.length (JS.capitalize_from b s) = String.length s.
Proof.
  revert b. induction s as [|c rest IH]; intros b; simpl; [done|].
  by rewrite IH.
Qed.

Lemma replace_underscores_none (s : string) :
  no_underscore (JS.replace_underscores s) = true.
Proof.
  unfold no_underscore, JS.replace_underscores.
  induction s as [|c rest IH]; cbn [JS.map_chars all_chars]; [done|].
  rewrite IH, andb_true_r. by destruct (Ascii.eqb c "_") eqn:E; [|rewrite E].
Qed.

Lemma replace_underscores_fixed (s : string) :
  no_underscore s = true → JS.replace_underscores s = s.
Proof.
  unfold no_underscore, JS.replace_underscores.
  induction s as [|c rest IH]; cbn [JS.map_chars all_chars]; [done|].
  intros [Hc Hrest]%andb_true_iff. rewrite (IH Hrest).
  by destruct (Ascii.eqb c "_").
Qed.

Lemma capitalize_from_no_underscore (b : bool) (s : string) :
  no_underscore s = true → no_underscore (JS.capitalize_from b s) = true.
Proof.
  unfold no_underscore. revert b.
  induction s as [|c rest IH]; intros b; cbn [JS.capitalize_from all_chars];
    [done|].
  intros [Hc Hrest]%andb_true_iff. rewrite (IH _ Hrest), andb_true_r.
  destruct (JS.is_word_char c && negb b); [|done].
  by rewrite char_upper_underscore.
Qed.

Lemma capitalize_from_idempotent (b : bool) (s : string) :
  JS.capitalize_from b (JS.capitalize_from b s) = JS.capitalize_from b s.
Proof.
  revert b. induction s as [|c rest IH]; intros b; cbn [JS.capitalize_from];
    [done|].
  destruct (JS.is_word_char c && negb b) eqn:E.
  - rewrite char_upper_word, E, char_upper_upper. by rewrite IH.
  - rewrite E. by rewrite IH.
Qed.

(** X8: the item label has the length of the raw label, holds no
    underscore, and is left as it is by the same transformation applied
    again. *)
Theorem item_label_shape (raw : string) :
  String.length (JS.capitalize_words (JS.replace_underscores raw))
  = String.length raw
  ∧ no_underscore (JS.capitalize_words (JS.replace_underscores raw)) = true
  ∧ JS.capitalize_words
      (JS.replace_underscores
         (JS.capitalize_words (JS.replace_underscores raw)))
    = JS.capitalize_words (JS.replace_underscores raw).
Proof.
  unfold JS.capitalize_words. split; [|split].
  - rewrite capitalize_from_length. apply map_chars_length.
  - apply capitalize_from_no_underscore, replace_underscores_none.
  - rewrite replace_underscores_fixed
      by apply capitalize_from_no_underscore, replace_underscores_none.
    apply capitalize_from_idempotent.
Qed.

(** ** The client and the proxy *)

(** The pipeline on a successful answer of the proxy. *)
Lemma classify_pipeline_result_witness :
  ∃ r, classification (analyzeWaste sampleNetOk sampleImage initialState)
       = Some r
       ∧ isAnalyzing (analyzeWaste sampleNetOk sampleImage initialState)
         = false
       ∧ (0 ≤ confidence r ≤ 100)%Z
       ∧ ((∀ x, receivedPayload sampleNetOk = Some x → no_prototype_label x) →
          validResult r).
Proof.
  apply (classify_pipeline_result sampleNetOk sampleImage initialState).
  - unfold Qle. simpl. lia.
  - reflexivity.
  - intros x Hx. injection Hx as <-. simpl.
    constructor; [|constructor]. simpl. split; unfold Qle; simpl; lia.
Defined.

(** X10: when the data URL is read, the proxy answers with a success
    and a body that the mapper accepts, the classification set is the
    mapper's result, whatever [Math.random()] gives; the two fetches
    are the only effects. *)
Theorem analyzeWaste_genuine_result (net : Network) (imageData : string)
  (s : State) (resp : Response) (x : XimilarResult)
  (r : ClassificationResult) :
  dataUrl net = JS.Return tt →
  classify net = JS.Return resp →
  ok resp = true →
  json resp = JS.Return x →
  processXimilarResult x = JS.Return r →
  classification (analyzeWaste net imageData s) = Some r
  ∧ isAnalyzing (analyzeWaste net imageData s) = false
  ∧ effects (analyzeWaste net imageData s)
    = effects s ++ [Fetch imageData; Fetch "/api/classify-waste"].
Proof.
  intros Hd Hc Hok Hj Hr.
  unfold analyzeWaste. rewrite analyzeWaste_resume_eq. cbv zeta.
  rewrite Hd, Hc, Hok, Hj, Hr. simpl.
  by rewrite <- app_assoc.
Qed.

Lemma analyzeWaste_genuine_result_witness :
  classification (analyzeWaste sampleNetOk sampleImage initialState)
  = Some {| type := Some recyclable;
            confidence := 85;
            item := "Plastic Bottle";
            tips := Some "Clean and place in recycling bin. Check local recycling guidelines for proper disposal." |}
  ∧ isAnalyzing (analyzeWaste sampleNetOk sampleImage initialState) = false
  ∧ effects (analyzeWaste sampleNetOk sampleImage initialState)
    = effects initialState ++ [Fetch sampleImage; Fetch "/api/classify-waste"].
Proof.
  eapply (analyzeWaste_genuine_result sampleNetOk sampleImage initialState);
    reflexivity.
Defined.

(** X11: whatever the network does, [analyzeWaste] leaves the camera,
    the stored image and the registered callbacks as they are, raises
    no alert, and fetches the data URL and then the proxy at most
    once. *)
Theorem analyzeWaste_frame (net : Network) (imageData : string) (s : State) :
  isCapturing (analyzeWaste net imageData s) = isCapturing s
  ∧ isInitializingCamera (analyzeWaste net imageData s)
    = isInitializingCamera s
  ∧ capturedImage (analyzeWaste net imageData s) = capturedImage s
  ∧ streamRef (analyzeWaste net imageData s) = streamRef s
  ∧ liveStreams (analyzeWaste net imageData s) = liveStreams s
  ∧ pending (analyzeWaste net imageData s) = pending s
  ∧ isAnalyzing (analyzeWaste net imageData s) = false
  ∧ (effects (analyzeWaste net imageData s)
       = effects s ++ [Fetch imageData; Fetch "/api/classify-waste"]
     ∨ effects (analyzeWaste net imageData s)
       = effects s ++ [Fetch imageData]).
Proof.
  unfold analyzeWaste. rewrite analyzeWaste_resume_eq. cbv zeta.
  repeat case_match; simpl; rewrite <- ?app_assoc; split_and!; auto.
Qed.



(** X13: [POST] forwards the provider's body unchanged when the first
    element of the parsed records is not null and the provider answers
    with a success and valid JSON.  It always answers with status 200,
    and its body is always the provider's body or one of the two
    synthetic payloads.  When the request cannot be read (the form or
    the JSON text does not parse, the parsed value is null or has no
    first element, or the first element is null), the answer is the
    synthetic "general_waste" payload whatever the provider would
    answer. *)
Theorem proxy_forwards_or_synthesizes (request : Proxy.Request)
  (provider : JS.Exn Proxy.ProviderResponse) :
  (∀ b recs resp x,
     Proxy.parsedRecords request
     = JS.Return (Some (Proxy.RecordValue b :: recs)) →
     provider = JS.Return resp →
     Proxy.ok resp = true →
     Proxy.json resp = JS.Return x →
     Proxy.POST request provider = Proxy.NextResponse_json x)
  ∧ Proxy.res_status (Proxy.POST request provider) = 200%nat
  ∧ (Proxy.body (Proxy.POST request provider)
       = Proxy.synthetic "plastic_bottle" (85 # 100)
     ∨ Proxy.body (Proxy.POST request provider)
       = Proxy.synthetic "general_waste" (75 # 100)
     ∨ ∃ resp, provider = JS.Return resp ∧ Proxy.ok resp = true
               ∧ Proxy.json resp
                 = JS.Return (Proxy.body (Proxy.POST request provider)))
  ∧ ((∀ b recs, Proxy.parsedRecords request
                ≠ JS.Return (Some (Proxy.RecordValue b :: recs))) →
     Proxy.POST request provider
     = Proxy.NextResponse_json (Proxy.synthetic "general_waste" (75 # 100))).
Proof.
  rewrite POST_cases. split_and!.
  - intros b recs resp x -> -> Hok Hj. by rewrite Hok, Hj.
  - reflexivity.
  - cbn [Proxy.body Proxy.NextResponse_json].
    destruct (Proxy.parsedRecords request) as [[[|[|b] recs]|]|]; auto.
    destruct provider as [resp|]; auto.
    destruct (Proxy.ok resp) eqn:Hok; auto.
    destruct (Proxy.json resp) eqn:Hj; eauto 10.
  - intros Hbad.
    destruct (Proxy.parsedRecords request) as [[[|[|b] recs]|]|]; try done.
    by destruct (Hbad b recs).
Qed.

(** A request whose first record is null is answered with the
    synthetic "general_waste" payload, though the provider would
    answer with a success. *)
Example proxy_null_record :
  let provider :=
    JS.Return {| Proxy.ok := true; Proxy.status := 200;
                 Proxy.json := JS.Return (payloadOf sampleTie []) |} in
  Proxy.body
    (Proxy.POST {| Proxy.parsedRecords := JS.Return (Some [Proxy.RecordNull]) |}
       provider)
  = Proxy.synthetic "general_waste" (75 # 100)
  ∧ Proxy.body (Proxy.POST {| Proxy.parsedRecords := JS.Return None |} provider)
    = Proxy.synthetic "general_waste" (75 # 100)
  ∧ Proxy.body (Proxy.POST sampleRequest provider) = payloadOf sampleTie [].
Proof. split_and!; reflexivity. Qed.

(** ** The camera *)

Lemma startCamera_cells (env : CameraEnv) (s : State) :
  isInitializingCamera (startCamera env s) = false
  ∧ isCapturing (startCamera env s) = isCapturing s
  ∧ capturedImage (startCamera env s) = capturedImage s
  ∧ classification (startCamera env s) = classification s
  ∧ isAnalyzing (startCamera env s) = isAnalyzing s.
Proof.
  unfold startCamera, startCamera_begin, startCamera_resume, startCamera_catch.
  destruct (supported env); simpl; [|done].
  destruct (preferred env) as [stream|[name message|]]; simpl;
    repeat case_match; done.
Qed.

Lemma startCamera_streams (env : CameraEnv) (s : State) :
  liveStreams s ⊆ liveStreams (startCamera env s)
  ∧ (streamRef (startCamera env s) = streamRef s
       ∧ liveStreams (startCamera env s) = liveStreams s
     ∨ ∃ stream,
         streamRef (startCamera env s) = Some stream
         ∧ liveStreams (startCamera env s) = {[ stream ]} ∪ liveStreams s
         ∧ (preferred env = Resolves stream ∨ basic env = Resolves stream)).
Proof.
  unfold startCamera, startCamera_begin, startCamera_resume, startCamera_catch.
  destruct (supported env); simpl; [|by auto].
  destruct (preferred env) as [stream|[name message|]]; simpl.
  - destruct (videoMounted env); cbn [liveStreams streamRef];
      (split; [apply union_subseteq_r|]); right; exists stream; by auto.
  - repeat (destruct (String.eqb name _); simpl; [by auto|]).
    destruct (String.eqb name _); simpl; [|by auto].
    destruct (basic env) as [fallback|]; simpl; [|by auto].
    destruct (videoMounted env); cbn [liveStreams streamRef];
      (split; [apply union_subseteq_r|]); right; exists fallback; by auto.
  - by auto.
Qed.

(** X14: whatever the browser answers, when [startCamera] settles the
    initializing flag is lowered, the preview flag, the stored image,
    the classification and the analysis flag are as before, no stream
    has been stopped, and a stream is held anew only if one of the two
    [getUserMedia] calls resolved with it; that stream is live. *)
Theorem startCamera_settles (env : CameraEnv) (s : State) :
  isInitializingCamera (startCamera env s) = false
  ∧ isCapturing (startCamera env s) = isCapturing s
  ∧ capturedImage (startCamera env s) = capturedImage s
  ∧ classification (startCamera env s) = classification s
  ∧ isAnalyzing (startCamera env s) = isAnalyzing s
  ∧ liveStreams s ⊆ liveStreams (startCamera env s)
  ∧ (streamRef (startCamera env s) = streamRef s
     ∨ ∃ stream,
         streamRef (startCamera env s) = Some stream
         ∧ stream ∈ liveStreams (startCamera env s)
         ∧ (preferred env = Resolves stream ∨ basic env = Resolves stream)).
Proof.
  destruct (startCamera_cells env s) as (H1 & H2 & H3 & H4 & H5).
  destruct (startCamera_streams env s) as (H6 & H7).
  split_and!; try done.
  destruct H7 as [[H7 _] | (stream & Href & Hlive & Hfrom)]; [by left|].
  right. exists stream. split_and!; try done.
  rewrite Hlive. apply elem_of_union_l. by apply elem_of_singleton.
Qed.

(** X15: when [getUserMedia] rejects with an error other than
    "OverconstrainedError" (or with something that is not an error),
    [startCamera] acquires nothing, changes no cell but the
    initializing flag, and raises exactly one alert: its own message
    for "NotAllowedError", for "NotFoundError" and for
    "NotSupportedError", the message built from the error's text for
    any other error, and the generic message for what is not an
    error. *)
Theorem startCamera_rejected (env : CameraEnv) (s : State) (r : Rejection) :
  supported env = true →
  preferred env = Rejects r →
  (∀ message, r ≠ DOMError "OverconstrainedError" message) →
  streamRef (startCamera env s) = streamRef s
  ∧ liveStreams (startCamera env s) = liveStreams s
  ∧ pending (startCamera env s) = pending s
  ∧ isInitializingCamera (startCamera env s) = false
  ∧ ∃ shown,
      effects (startCamera env s) = effects s ++ [Alert shown]
      ∧ match r with
        | DOMError "NotAllowedError" _ => shown = msgNotAllowed
        | DOMError "NotFoundError" _ => shown = msgNotFound
        | DOMError "NotSupportedError" _ => shown = msgNotSupported
        | DOMError _ message => shown = msgUnknown message
        | NotAnError => shown = msgNotError
        end.
Proof.
  intros Hsup Hpref Hnot.
  unfold startCamera, startCamera_begin, startCamera_resume, startCamera_catch.
  rewrite Hsup, Hpref. simpl.
  destruct r as [name message|]; [|by eauto 10].
  destruct (String.eqb name "NotAllowedError") eqn:E1.
  { apply String.eqb_eq in E1 as ->. by eauto 10. }
  destruct (String.eqb name "NotFoundError") eqn:E2.
  { apply String.eqb_eq in E2 as ->. by eauto 10. }
  destruct (String.eqb name "NotSupportedError") eqn:E3.
  { apply String.eqb_eq in E3 as ->. by eauto 10. }
  destruct (String.eqb name "OverconstrainedError") eqn:E4.
  { apply String.eqb_eq in E4 as ->. by destruct (Hnot message). }
  simpl. split_and!; try done. exists (msgUnknown message). split; [done|].
  apply String.eqb_neq in E1, E2, E3.
  repeat case_match; subst; done.
Qed.

Lemma startCamera_rejected_witness :
  streamRef (startCamera (sampleRejected "NotAllowedError" (Rejects NotAnError))
               initialState) = streamRef initialState
  ∧ liveStreams (startCamera
                   (sampleRejected "NotAllowedError" (Rejects NotAnError))
                   initialState) = liveStreams initialState
  ∧ pending (startCamera
               (sampleRejected "NotAllowedError" (Rejects NotAnError))
               initialState) = pending initialState
  ∧ isInitializingCamera
      (startCamera (sampleRejected "NotAllowedError" (Rejects NotAnError))
         initialState) = false
  ∧ ∃ shown,
      effects (startCamera
                 (sampleRejected "NotAllowedError" (Rejects NotAnError))
                 initialState) = effects initialState ++ [Alert shown]
      ∧ shown = msgNotAllowed.
Proof.
  apply (startCamera_rejected
           (sampleRejected "NotAllowedError" (Rejects NotAnError))
           initialState (DOMError "NotAllowedError" "denied")).
  - reflexivity.
  - reflexivity.
  - intros message. discriminate.
Defined.

(** X16: when [getUserMedia] rejects with "OverconstrainedError",
    [startCamera] alerts and calls it again with basic constraints: if
    that call resolves, its stream is held and live, with no further
    alert; if it rejects, a second alert follows and nothing is
    acquired.  In both cases the initializing flag is lowered. *)
Theorem startCamera_overconstrained (env : CameraEnv) (s : State)
  (message : string) :
  supported env = true →
  preferred env = Rejects (DOMError "OverconstrainedError" message) →
  isInitializingCamera (startCamera env s) = false
  ∧ match basic env with
    | Resolves fallbackStream =>
        streamRef (startCamera env s) = Some fallbackStream
        ∧ liveStreams (startCamera env s)
          = {[ fallbackStream ]} ∪ liveStreams s
        ∧ effects (startCamera env s)
          = effects s ++ [Alert msgOverconstrained]
        ∧ pending (startCamera env s)
          = pending s ++ (if videoMounted env then [OnLoadedMetadata] else [])
    | Rejects _ =>
        streamRef (startCamera env s) = streamRef s
        ∧ liveStreams (startCamera env s) = liveStreams s
        ∧ effects (startCamera env s)
          = effects s ++ [Alert msgOverconstrained; Alert msgBasicFailed]
        ∧ pending (startCamera env s) = pending s
    end.
Proof.
  intros Hsup Hpref.
  unfold startCamera, startCamera_begin, startCamera_resume, startCamera_catch.
  rewrite Hsup, Hpref. simpl.
  destruct (basic env) as [fallbackStream|]; simpl.
  - destruct (videoMounted env); simpl; split_and!; try done.
    by rewrite app_nil_r.
  - split_and!; try done. by rewrite <- app_assoc.
Qed.

Lemma startCamera_overconstrained_witness :
  isInitializingCamera
    (startCamera (sampleRejected "OverconstrainedError" (Resolves 3))
       initialState) = false
  ∧ streamRef (startCamera (sampleRejected "OverconstrainedError" (Resolves 3))
                 initialState) = Some 3%nat
  ∧ liveStreams (startCamera
                   (sampleRejected "OverconstrainedError" (Resolves 3))
                   initialState) = {[ 3%nat ]} ∪ liveStreams initialState
  ∧ effects (startCamera (sampleRejected "OverconstrainedError" (Resolves 3))
               initialState)
    = effects initialState ++ [Alert msgOverconstrained]
  ∧ pending (startCamera (sampleRejected "OverconstrainedError" (Resolves 3))
               initialState)
    = pending initialState ++ [].
Proof.
  apply (startCamera_overconstrained
           (sampleRejected "OverconstrainedError" (Resolves 3))
           initialState "denied"); reflexivity.
Defined.

(** X17: cancel and reset are idempotent and commute: a second
    [stopCamera] or a second [resetApp] changes nothing, and the two
    give the same state in either order. *)
Theorem cancel_and_reset_compose (s : State) :
  stopCamera (stopCamera s) = stopCamera s
  ∧ resetApp (resetApp s) = resetApp s
  ∧ resetApp (stopCamera s) = stopCamera (resetApp s).
Proof.
  destruct s as [cap init img cls ana ref live pend eff].
  unfold stopCamera, resetApp. simpl.
  destruct ref; split_and!; reflexivity.
Qed.

Lemma stopCamera_streams (s : State) :
  liveStreams (stopCamera s)
  = match streamRef s with
    | Some held => liveStreams s ∖ {[ held ]}
    | None => liveStreams s
    end.
Proof. unfold stopCamera. by destruct (streamRef s). Qed.

Lemma run_streams (current : bool) (cb : Callback) (s : State) :
  liveStreams (run current cb s) = liveStreams s.
Proof.
  unfold run, handleLoadedMetadata, timeoutFallback.
  case_bool_decide; [|done]. destruct cb, current; simpl; try done.
  all: by destruct (streamRef s).
Qed.

Lemma captureImage_streams (dom : Dom) (s : State) :
  liveStreams (captureImage dom s) = liveStreams s
  ∨ liveStreams (captureImage dom s) = liveStreams (stopCamera s).
Proof.
  unfold captureImage.
  destruct (videoRef dom) as [video|]; [|by left].
  destruct (canvasRef dom) as [canvas|]; [|by left].
  destruct ((videoWidth video =? 0) || (videoHeight video =? 0))%N;
    [by left|].
  destruct (context2d canvas); [|by left].
  right. unfold analyzeWaste_begin, perform, setIsAnalyzing.
  cbn [liveStreams]. by rewrite !stopCamera_streams.
Qed.

(** X18: no handler stops the tracks of a stream other than the one
    that [streamRef] holds: a live stream that [streamRef] does not
    hold is still live after any step. *)
Theorem unheld_stream_stays_live (s s' : State) (stream : MediaStream) :
  step s s' →
  stream ∈ liveStreams s →
  streamRef s ≠ Some stream →
  stream ∈ liveStreams s'.
Proof.
  intros Hstep Hlive Hheld.
  assert (stream ∈ liveStreams (stopCamera s)) as Hstop.
  { rewrite stopCamera_streams. destruct (streamRef s) as [held|]; [|done].
    apply elem_of_difference. split; [done|].
    rewrite elem_of_singleton. congruence. }
  destruct Hstep as [env s _|current cb s|dom s _|s _|net s _|s _].
  - by apply (startCamera_streams env s).
  - by rewrite run_streams.
  - by destruct (captureImage_streams dom s) as [-> | ->].
  - exact Hstop.
  - by destruct (analyzeWaste_resume_unchanged net s) as (_ & _ & -> & _).
  - exact Hlive.
Qed.

Lemma unheld_stream_stays_live_witness :
  1%nat ∈ liveStreams (stopCamera sampleLeaked).
Proof.
  apply (unheld_stream_stays_live sampleLeaked (stopCamera sampleLeaked) 1).
  - apply step_cancel. reflexivity.
  - apply elem_of_union_l. by apply elem_of_singleton.
  - discriminate.
Defined.

(** X19: [startCamera] does not release the stream that is held before
    it acquires another: when [getUserMedia] resolves with a new stream
    while a live stream is held, the new one takes its place in
    [streamRef] and the old one stays live. *)
Theorem second_start_leaks (env : CameraEnv) (s : State)
  (old new : MediaStream) :
  supported env = true →
  preferred env = Resolves new →
  streamRef s = Some old →
  old ∈ liveStreams s →
  old ≠ new →
  streamRef (startCamera env s) = Some new
  ∧ old ∈ liveStreams (startCamera env s)
  ∧ new ∈ liveStreams (startCamera env s)
  ∧ streamRef (startCamera env s) ≠ Some old.
Proof.
  intros Hsup Hpref Href Hlive Hne.
  unfold startCamera, startCamera_begin, startCamera_resume.
  rewrite Hsup, Hpref. simpl.
  destruct (videoMounted env); cbn [streamRef liveStreams];
    split_and!; try done;
    try (apply elem_of_union_r; exact Hlive);
    try (apply elem_of_union_l; by apply elem_of_singleton);
    simpl; congruence.
Qed.

Lemma second_start_leaks_witness :
  let once := startCamera (sampleCamera false) initialState in
  let env := {| supported := true;
                preferred := Resolves 2;
                basic := Rejects NotAnError;
                videoMounted := false |} in
  showsStart once = true
  ∧ streamRef (startCamera env once) = Some 2%nat
  ∧ 1%nat ∈ liveStreams (startCamera env once)
  ∧ 2%nat ∈ liveStreams (startCamera env once)
  ∧ streamRef (startCamera env once) ≠ Some 1%nat.
Proof.
  cbv zeta. split; [reflexivity|].
  apply (second_start_leaks
           {| supported := true;
              preferred := Resolves 2;
              basic := Rejects NotAnError;
              videoMounted := false |}
           (startCamera (sampleCamera false) initialState) 1 2).
  - reflexivity.
  - reflexivity.
  - reflexivity.
  - apply elem_of_union_l. by apply elem_of_singleton.
  - discriminate.
Defined.

(** X20: [captureImage] either takes the picture or tells the user and
    changes nothing.  It takes the picture exactly when the video and
    the canvas are mounted, the frame has a width and a height and the
    canvas gives a context: then the data URL of the frame is stored,
    the preview is closed, the held stream is stopped and released, the
    analysis starts and the data URL is fetched.  Otherwise its whole
    effect is one alert. *)
Theorem captureImage_all_or_alert (dom : Dom) (s : State) :
  (captures dom
   ∧ ∃ canvas,
       canvasRef dom = Some canvas
       ∧ capturedImage (captureImage dom s) = Some (toDataURL canvas)
       ∧ isCapturing (captureImage dom s) = false
       ∧ isAnalyzing (captureImage dom s) = true
       ∧ streamRef (captureImage dom s) = None
       ∧ liveStreams (captureImage dom s) = liveStreams (stopCamera s)
       ∧ classification (captureImage dom s) = classification s
       ∧ effects (captureImage dom s)
         = effects s ++ [Fetch (toDataURL canvas)])
  ∨ (¬ captures dom
     ∧ ∃ message,
         captureImage dom s = alert message s
         ∧ (message = msgVideoNotReady ∨ message = msgNoContext
            ∨ message = msgNotMounted)).
Proof.
  unfold captureImage, captures.
  destruct (videoRef dom) as [video|] eqn:Hv;
    [|right; split; [by intros (? & ? & ? & _)|by eauto 10]].
  destruct (canvasRef dom) as [canvas|] eqn:Hc;
    [|right; split; [by intros (? & ? & _ & ? & _)|by eauto 10]].
  destruct ((videoWidth video =? 0) || (videoHeight video =? 0))%N eqn:Hdim.
  { right. split; [|by eauto 10].
    intros (v & c & [= <-] & _ & Hw & Hh & _).
    apply orb_true_iff in Hdim as [E%N.eqb_eq | E%N.eqb_eq]; done. }
  apply orb_false_iff in Hdim as [Hw%N.eqb_neq Hh%N.eqb_neq].
  destruct (context2d canvas) eqn:Hctx.
  - left. split; [by exists video, canvas|].
    exists canvas. split; [done|].
    destruct (stopCamera_releases
                (setCapturedImage (Some (toDataURL canvas)) s))
      as (Hcap & _ & Href & _ & Himg).
    unfold analyzeWaste_begin, perform, setIsAnalyzing.
    cbn [capturedImage isCapturing isAnalyzing streamRef liveStreams
         classification effects].
    rewrite Himg, Hcap, Href, !stopCamera_streams.
    split_and!; try done.
    all: unfold stopCamera; cbn [streamRef setCapturedImage];
      by destruct (streamRef s).
  - right. split; [|by eauto 10].
    intros (v & c & _ & [= <-] & _ & _ & Hctx'). congruence.
Qed.

Lemma remove_one_occurrences (cb c : Callback) (l : list Callback) :
  cb ∈ l →
  occurrences c (remove_one cb l)
  = (occurrences c l - (if decide (c = cb) then 1 else 0))%nat.
Proof.
  unfold occurrences. induction l as [|x l IH]; [by intros ?%not_elem_of_nil|].
  intros Hin. cbn [remove_one count_occ].
  destruct (decide (x = cb)) as [-> | Hne].
  - destruct (Callback_eq_dec cb c) as [-> | Hc].
    + rewrite decide_True by done. lia.
    + rewrite decide_False by done. lia.
  - apply elem_of_cons in Hin as [-> | Hin]; [done|].
    cbn [count_occ]. rewrite (IH Hin).
    destruct (Callback_eq_dec x c) as [-> | Hc]; [|done].
    rewrite decide_False by done. lia.
Qed.

(** X21: the timer and the [loadedmetadata] listener, registration by
    registration.  A callback that is not registered does not run.  A
    run of the timer takes away one registration of the timer and
    leaves every other one, so that of two timers set by two starts
    the second still fires.  A run of the listener takes away one
    registration of the listener when [videoRef.current] is the element
    that fired the event, and none otherwise: the listener then stays
    registered and runs again at the next event.  In every case a
    second run leaves the cells of the state as the first run left
    them. *)
Theorem listener_and_timer_one_shot (current : bool) (cb : Callback)
  (s : State) :
  cb = LoadedMetadataListener ∨ cb = Timeout3000 →
  (cb ∉ pending s → run current cb s = s)
  ∧ (cb ∈ pending s →
     ∀ c, occurrences c (pending (run current cb s))
          = if bool_decide (c = cb ∧ (cb = Timeout3000 ∨ current = true))
            then (occurrences c (pending s) - 1)%nat
            else occurrences c (pending s))
  ∧ same_cells (run current cb (run current cb s)) (run current cb s).
Proof.
  intros Hcb.
  assert (∀ s0, cb ∉ pending s0 → run current cb s0 = s0) as Hidle.
  { intros s0 Hnot. unfold run. by rewrite bool_decide_eq_false_2. }
  split; [apply Hidle|]. split.
  - intros Hin c. unfold run, handleLoadedMetadata, timeoutFallback.
    rewrite bool_decide_eq_true_2 by done.
    destruct Hcb as [-> | ->].
    + destruct current; cbn [pending unregister setIsInitializingCamera
                             setIsCapturing].
      * rewrite (remove_one_occurrences _ c _ Hin).
        case_bool_decide as Hc; [destruct Hc as [-> _]|].
        -- by rewrite decide_True.
        -- rewrite decide_False; [lia|]. intros ->. apply Hc. by auto.
      * rewrite bool_decide_eq_false_2; [done|].
        by intros [_ [?|?]].
    + assert (pending
                match streamRef (unregister Timeout3000 s) with
                | Some _ =>
                    setIsInitializingCamera false
                      (setIsCapturing true (unregister Timeout3000 s))
                | None => unregister Timeout3000 s
                end = remove_one Timeout3000 (pending s)) as ->
        by (by destruct (streamRef (unregister Timeout3000 s))).
      rewrite (remove_one_occurrences _ c _ Hin).
      case_bool_decide as Hc; [destruct Hc as [-> _]|].
      * by rewrite decide_True.
      * rewrite decide_False; [lia|]. intros ->. apply Hc. by auto.
  - destruct (decide (cb ∈ pending s)) as [Hfirst | Hnone];
      [|by rewrite !(Hidle _ Hnone)].
    destruct (decide (cb ∈ pending (run current cb s))) as [Hin | Hout];
      [|by rewrite (Hidle _ Hout)].
    unfold run at 1. rewrite bool_decide_eq_true_2 by done.
    clear Hin. unfold run, handleLoadedMetadata, timeoutFallback.
    rewrite bool_decide_eq_true_2 by done.
    destruct (streamRef s) eqn:Href;
      destruct Hcb as [-> | ->]; destruct current;
      cbn [streamRef unregister setIsInitializingCamera setIsCapturing];
      rewrite ?Href;
      cbn [streamRef unregister setIsInitializingCamera setIsCapturing];
      rewrite ?Href; by split_and!.
Qed.

Lemma listener_and_timer_one_shot_witness :
  let twice :=
    startCamera (sampleCamera true)
      (stopCamera (startCamera (sampleCamera true) initialState)) in
  occurrences Timeout3000 (pending twice) = 2%nat
  ∧ (Timeout3000 ∉ pending twice → run true Timeout3000 twice = twice)
  ∧ (Timeout3000 ∈ pending twice →
     ∀ c, occurrences c (pending (run true Timeout3000 twice))
          = if bool_decide (c = Timeout3000
                            ∧ (Timeout3000 = Timeout3000 ∨ true = true))
            then (occurrences c (pending twice) - 1)%nat
            else occurrences c (pending twice))
  ∧ same_cells (run true Timeout3000 (run true Timeout3000 twice))
      (run true Timeout3000 twice).
Proof.
  cbv zeta. split; [reflexivity|].
  apply (listener_and_timer_one_shot true Timeout3000).
  right. reflexivity.
Defined.

(** Of two timers, one is left after one has fired; a listener whose
    element is no longer the current one stays registered. *)
Example second_timer_still_fires :
  let twice :=
    startCamera (sampleCamera true)
      (stopCamera (startCamera (sampleCamera true) initialState)) in
  occurrences Timeout3000 (pending (run true Timeout3000 twice)) = 1%nat
  ∧ occurrences LoadedMetadataListener
      (pending (run false LoadedMetadataListener twice)) = 2%nat
  ∧ occurrences LoadedMetadataListener
      (pending (run true LoadedMetadataListener twice)) = 1%nat.
Proof. split_and!; reflexivity. Qed.

(** X22: the timer opens the preview only while a stream is held.  If
    the camera was stopped before the timer runs, the preview stays
    closed and nothing but the registration of the timer changes; if a
    stream is held, the timer raises the preview flag. *)
Theorem timer_needs_a_stream (current : bool) (s : State) :
  isCapturing (run current Timeout3000 (stopCamera s)) = false
  ∧ isInitializingCamera (run current Timeout3000 (stopCamera s)) = false
  ∧ streamRef (run current Timeout3000 (stopCamera s)) = None
  ∧ liveStreams (run current Timeout3000 (stopCamera s))
    = liveStreams (stopCamera s)
  ∧ effects (run current Timeout3000 (stopCamera s)) = effects s
  ∧ (Timeout3000 ∈ pending s → is_Some (streamRef s) →
     isCapturing (run current Timeout3000 s) = true
     ∧ isInitializingCamera (run current Timeout3000 s) = false
     ∧ streamRef (run current Timeout3000 s) = streamRef s).
Proof.
  destruct (stopCamera_releases s) as (Hcap & Hinit & Href & _).
  assert (effects (stopCamera s) = effects s) as Heff.
  { unfold stopCamera. by destruct (streamRef s). }
  split_and!.
  1-5: unfold run, timeoutFallback; case_bool_decide;
       cbn [streamRef unregister]; rewrite ?Href; done.
  intros Hin [stream Hs]. unfold run, timeoutFallback.
  rewrite bool_decide_eq_true_2 by done.
  cbn [streamRef unregister]. by rewrite Hs.
Qed.

(** ** What the handlers reach *)

Lemma startCamera_unmounted (env : CameraEnv) (s : State) :
  videoMounted env = false → pending (startCamera env s) = pending s.
Proof.
  intros Hun.
  unfold startCamera, startCamera_begin, startCamera_resume, startCamera_catch.
  rewrite Hun. destruct (supported env); simpl; [|done].
  destruct (preferred env) as [stream|[name message|]]; simpl;
    repeat case_match; done.
Qed.

(** X24: with the [<video>] element mounted as the component renders
    it, the preview is never opened.  [startCamera] finds
    [videoRef.current] null, so it registers no listener and no timer,
    and nothing else raises the preview flag: in every state that the
    handlers reach, [isCapturing] is false, no callback is registered,
    and no image has been captured or classified. *)
Theorem preview_never_opens (s : State) :
  rendered_reachable s →
  isCapturing s = false
  ∧ pending s = []
  ∧ capturedImage s = None
  ∧ classification s = None
  ∧ isAnalyzing s = false.
Proof.
  induction 1 as [|s s' Hreach IH Hstep]; [done|].
  destruct IH as (Hcap & Hpend & Himg & Hcls & Hana).
  destruct Hstep
    as [env s Hshown Hmount|current cb s|dom s Hc|s Hc|net s Ha|s Hr].
  - destruct (startCamera_cells env s) as (_ & -> & -> & -> & ->).
    rewrite startCamera_unmounted by congruence. done.
  - unfold run. rewrite Hpend.
    rewrite bool_decide_eq_false_2 by apply not_elem_of_nil. done.
  - congruence.
  - congruence.
  - congruence.
  - unfold showsResult in Hr. rewrite Himg in Hr. done.
Qed.

Lemma preview_never_opens_witness :
  let s := startCamera (sampleCamera false)
            (startCamera (sampleCamera false) initialState) in
  streamRef s = Some 1%nat
  ∧ isCapturing s = false
  ∧ pending s = []
  ∧ capturedImage s = None
  ∧ classification s = None
  ∧ isAnalyzing s = false.
Proof.
  cbv zeta. split; [reflexivity|].
  apply preview_never_opens.
  apply (rendered_next (startCamera (sampleCamera false) initialState)).
  - apply (rendered_next initialState); [apply rendered_initial|].
    apply rendered_start; reflexivity.
  - apply rendered_start; reflexivity.
Defined.

(** ** The result card *)

Lemma renderClassification_throws (c : ClassificationResult) :
  (∃ e, renderClassification c = JS.Throw e) ↔ type c = None.
Proof.
  unfold renderClassification, typeHeading.
  destruct (type c); simpl; split; try done.
  - by intros [e He].
  - by eauto.
Qed.

(** X25: rendering throws exactly when the result card has to show a
    classification whose category is [undefined]: an image is stored,
    the analysis is over, and the classification set has no [type].
    In every other state the component renders. *)
Theorem render_throws (s : State) :
  (∃ e, render s = JS.Throw e)
  ↔ JS.truthy (capturedImage s) = true
    ∧ isAnalyzing s = false
    ∧ ∃ c, classification s = Some c ∧ type c = None.
Proof.
  unfold render.
  destruct (capturedImage s) as [image|]; simpl;
    [|split; [by intros [e He]|by intros [? _]]].
  destruct (negb (String.eqb image "")); simpl;
    [|split; [by intros [e He]|by intros [? _]]].
  destruct (isAnalyzing s); simpl;
    [split; [by intros [e He]|by intros (_ & ? & _)]|].
  destruct (classification s) as [c|]; simpl;
    [|split; [by intros [e He]|by intros (_ & _ & ? & ? & _)]].
  pose proof (renderClassification_throws c) as Hc.
  destruct (renderClassification c) as [card|e]; simpl.
  - split; [by intros [e He]|].
    intros (_ & _ & c' & [= <-] & Hnone).
    destruct Hc as [_ Hc]. by destruct (Hc Hnone).
  - split; [|by eauto].
    intros _. split_and!; try done. exists c. split; [done|].
    apply Hc. by eauto.
Qed.

(** X26: a result that the mapper builds from a label that is, in
    lower case, a name inherited from [Object.prototype] cannot be
    shown: the mapper returns it, and the result card throws on it.  A
    complete result is always shown, with the category name as
    heading, its upper case on the badge, and the item, the confidence
    and the tip as they are. *)
Theorem inherited_label_breaks_the_card (top : Prediction) (raw : string) :
  label top = Some raw →
  JS.toLowerCase raw ∈ JS.Object_prototype_keys →
  (∃ r, mapPrediction top = JS.Return r
        ∧ renderClassification r = JS.Throw JS.TypeError)
  ∧ ∀ r, validResult r →
         ∃ t tip card,
           type r = Some t ∧ tips r = Some tip
           ∧ renderClassification r = JS.Return card
           ∧ heading card = replace_first "-" " " (typeName t)
           ∧ badgeText card = toUpperCase (heading card)
           ∧ shownItem card = item r
           ∧ shownConfidence card = confidence r
           ∧ shownTip card = Some tip.
Proof.
  intros Hraw Hin. split.
  - assert (wasteMapping !! JS.toLowerCase raw = None) as Hnone.
    { destruct (lower_prototype_key raw Hin) as [-> | ->];
        vm_compute; reflexivity. }
    unfold mapPrediction. rewrite Hraw. unfold JS.get at 1 3.
    rewrite Hnone, bool_decide_eq_true_2 by done. simpl.
    eexists. split; reflexivity.
  - intros r ([t Ht] & _ & [tip Htip]).
    exists t, tip. unfold renderClassification, typeHeading.
    rewrite Ht, Htip. simpl. eexists. split_and!; reflexivity.
Qed.

Lemma inherited_label_breaks_the_card_witness :
  ∃ r, mapPrediction {| label := Some "__PROTO__"; prob := 1 # 2 |}
       = JS.Return r
       ∧ renderClassification r = JS.Throw JS.TypeError.
Proof.
  apply (inherited_label_breaks_the_card
           {| label := Some "__PROTO__"; prob := 1 # 2 |} "__PROTO__").
  - reflexivity.
  - apply (bool_decide_unpack _). vm_compute. exact I.
Defined.
